(** * autopaper: citation renumbering, Vancouver formatting and winnowing

    A shallow embedding of [auto_paper/services/vancouver.py],
    [auto_paper/services/similarity.py] and the helper
    [auto_paper/utils.py:normalize_whitespace], with the properties the
    specification states about them.

    Conventions of the embedding.
    - A Python [str] is a [string]; a character is a code point below 256.
      The character classes are Python's, restricted to that range.
    - A Python [dict] is an insertion-ordered association list ([dict K V]):
      [dict_set] overwrites in place or appends, as CPython does, so that
      [items()] order is the order of first insertion.
    - Unbounded Python integers are [nat] (counters) or [Z] (years, hashes,
      the parameters [k] and [window]); the 64-bit mask of the hash is
      written out.
    - A Python [set] of integers is a [gset Z].
    - A Python [float] is an IEEE-754 double in the executable specification
      [spec_float] of the Standard Library (53 bits of mantissa, round to
      nearest even).
    - A Python exception is [None] in an [option] result. *)

From Stdlib Require Import String Ascii List ZArith Lia Bool Arith.
From Stdlib Require Import DecimalString Zpower Floats.SpecFloat.
From stdpp Require Import base decidable option list gmap sets strings.

Import ListNotations.
Local Open Scope list_scope.
Local Open Scope string_scope.

(** ** Python string primitives *)

Module Py.

(** [str.isspace] on one character (also the class [\s] of [re] on [str]
    patterns): TAB..CR, FS..US, space, NEL and NBSP. *)
Definition isspace (c : ascii) : bool :=
  let n := nat_of_ascii c in
  (((9 <=? n) && (n <=? 13)) || ((28 <=? n) && (n <=? 32))
   || (n =? 133) || (n =? 160))%nat.

(** [s.lstrip(chars)] with the character set given as a predicate. *)
Fixpoint lstrip_by (p : ascii -> bool) (s : string) : string :=
  match s with
  | EmptyString => EmptyString
  | String c s' => if p c then lstrip_by p s' else s
  end.

(** [s.rstrip(chars)]. *)
Fixpoint rstrip_by (p : ascii -> bool) (s : string) : string :=
  match s with
  | EmptyString => EmptyString
  | String c s' =>
      match rstrip_by p s' with
      | EmptyString => if p c then EmptyString else String c EmptyString
      | r => String c r
      end
  end.

(** [s.strip()] *)
Definition strip (s : string) : string := rstrip_by isspace (lstrip_by isspace s).

(** Truthiness of a [str]: non-empty. *)
Definition truthy (s : string) : bool :=
  match s with EmptyString => false | _ => true end.

(** [not t or not t.strip()]: the test that skips an empty or blank text. *)
Definition blank (t : string) : bool := negb (truthy t) || negb (truthy (strip t)).

(** [x or ""] for an [Optional[str]]. *)
Definition or_empty (o : option string) : string :=
  match o with Some s => s | None => "" end.

(** [str(n)] for a non-negative and for an arbitrary integer. *)
Definition str_of_nat (n : nat) : string := NilZero.string_of_uint (Nat.to_uint n).
Definition str_of_Z (z : Z) : string := NilZero.string_of_int (Z.to_int z).

(** [sep.join(l)] *)
Definition join (sep : string) (l : list string) : string := String.concat sep l.

(** [l.append(x)] *)
Definition push {A : Type} (l : list A) (x : A) : list A := (l ++ [x])%list.

(** [sub in s] *)
Fixpoint contains (sub s : string) : bool :=
  String.prefix sub s
  || match s with
     | EmptyString => false
     | String _ s' => contains sub s'
     end.

End Py.

(** ** Python floats *)

Module Double.

Definition prec : Z := 53.
Definition emax : Z := 1024.

(** [0.0] and [1.0] *)
Definition zero : spec_float := S754_zero false.
Definition one : spec_float := S754_finite false 4503599627370496%positive (-52)%Z.

(** [float(n)] for a count [n]; it is exact below 2^53. *)
Definition of_nat (n : nat) : spec_float :=
  binary_normalize prec emax (Z.of_nat n) 0 false.

(** [a / b] on two counts, [b] not zero: the quotient of the two doubles,
    rounded to nearest even. *)
Definition truediv (a b : nat) : spec_float :=
  SFdiv prec emax (of_nat a) (of_nat b).

(** [x >= y] and [x < y] *)
Definition ge (x y : spec_float) : bool := SFleb y x.
Definition lt (x y : spec_float) : bool := SFltb x y.

End Double.

(** ** Insertion-ordered dictionaries *)

Section Dict.
Context {K V : Type} `{EqDecision K}.

Definition dict : Type := list (K * V).

Fixpoint dict_get (d : dict) (k : K) : option V :=
  match d with
  | [] => None
  | (k', v) :: d' => if decide (k' = k) then Some v else dict_get d' k
  end.

Definition dict_mem (d : dict) (k : K) : bool :=
  match dict_get d k with Some _ => true | None => false end.

(** [d[k] = v]: overwrite where the key sits, else append. *)
Fixpoint dict_set (d : dict) (k : K) (v : V) : dict :=
  match d with
  | [] => [(k, v)]
  | (k', v') :: d' =>
      if decide (k' = k) then (k', v) :: d' else (k', v') :: dict_set d' k v
  end.

Definition dict_keys (d : dict) : list K := map fst d.
End Dict.

Arguments dict : clear implicits.

(** ** vancouver.py *)

Module Vancouver.
Import Py.

(** *** Data model (models.py) *)

Record Citation := {
  pmid : option string;
  doi : option string;
  title : string;
  authors : list string;
  journal : option string;
  journal_iso_abbrev : option string;
  year : option Z;
  volume : option string;
  issue : option string;
  pages : option string;
  publication_types : list string;
  url : option string;
  abstract : option string
}.

Record CitationUse := {
  citation : Citation;
  use_for : list string;
  priority : Z
}.

Record CitationPlan := {
  plan_max_count : Z;
  selected : list CitationUse
}.

Record ReferencesSpec := {
  style : string;
  max_count : Z;
  in_text_format : string;
  allow_classic_exceptions : Z
}.

Record JournalSpec := {
  journal_name : string;
  references : ReferencesSpec
}.

(** *** The reference formatter *)

Definition _format_authors (authors : list string) : string :=
  match authors with
  | [] => ""
  | _ =>
      if (length authors <=? 6)%nat
      then join ", " authors ++ "."
      else join ", " (firstn 6 authors) ++ ", et al."
  end.

(** [a or b] on an optional string and a string: the first truthy operand,
    else the last one. *)
Definition or_else (a : option string) (b : string) : string :=
  match a with
  | Some s => if truthy s then s else b
  | None => b
  end.

(** [re.sub(r"\s{2,}", " ", s)]: every maximal run of two or more whitespace
    characters becomes one space; a lone whitespace character stays. The flag
    tells that the scan is inside a run already replaced. *)
Fixpoint collapse_ws (inside : bool) (s : string) : string :=
  match s with
  | EmptyString => EmptyString
  | String c s' =>
      if isspace c then
        if inside then collapse_ws true s'
        else
          match s' with
          | EmptyString => String c EmptyString
          | String c' _ =>
              if isspace c' then String " " (collapse_ws true s')
              else String c (collapse_ws false s')
          end
      else String c (collapse_ws false s')
  end.

Definition is_dot (c : ascii) : bool := Ascii.eqb c ".".

(** The statements of [format_vancouver_reference] from the title on: they
    append to [parts]. *)
Definition after_authors (c : Citation) (parts : list string) : list string :=
  let title := rstrip_by is_dot (or_else (Some (title c)) "") in
  let journal := or_else (journal_iso_abbrev c) (or_else (journal c) "") in
  let year :=
    match year c with
    | Some y => if (y =? 0)%Z then "" else str_of_Z y
    | None => ""
    end in
  let vol := or_else (volume c) "" in
  let issue := or_else (issue c) "" in
  let pages := or_else (pages c) "" in
  let doi := or_else (doi c) "" in
  let parts := if truthy title then push parts (title ++ ".") else parts in
  let parts := if truthy journal then push parts (journal ++ ".") else parts in
  let parts :=
    if truthy year then
      let vol_issue :=
        if truthy issue
        then (if truthy vol then vol ++ "(" ++ issue ++ ")" else "(" ++ issue ++ ")")
        else vol in
      if truthy pages
      then push parts (year ++ ";" ++ vol_issue ++ ":" ++ pages ++ ".")
      else push parts (year ++ ";" ++ vol_issue ++ ".")
    else parts in
  if truthy doi then push parts ("doi:" ++ doi ++ ".")
  else
    match url c with
    | Some u => if truthy u then push parts u else parts
    | None => parts
    end.

(** The list [parts] when it is joined. *)
Definition reference_parts (c : Citation) : list string :=
  let a := _format_authors (authors c) in
  let parts : list string := [] in
  let parts := if truthy a then push parts a else parts in
  after_authors c parts.

Definition format_vancouver_reference (c : Citation) : string :=
  let parts := reference_parts c in
  let ref := join " " (List.filter (fun p => negb (String.eqb (strip p) "")) parts) in
  strip (collapse_ws false ref).

(** *** The placeholder scanner: [CITE_PATTERN] *)

(** The two alternatives of the group [(PMID|DOI)], in the pattern's order. *)
Inductive kind := PMID | DOI.

#[global] Instance kind_eq_dec : EqDecision kind.
Proof. solve_decision. Defined.

Definition kind_token (k : kind) : string :=
  match k with PMID => "PMID" | DOI => "DOI" end.

(** [strip_prefix p s = Some r] when [s = p ++ r]: matching a literal. *)
Fixpoint strip_prefix (p s : string) : option string :=
  match p with
  | EmptyString => Some s
  | String a p' =>
      match s with
      | EmptyString => None
      | String b s' => if Ascii.eqb a b then strip_prefix p' s' else None
      end
  end.

Definition rbrace : ascii := "}"%char.
Definition lbrace : ascii := "{"%char.

(** The greedy run matched by [[^}]*]: the longest prefix without a closing
    brace, and what follows it. *)
Fixpoint span_ident (s : string) : string * string :=
  match s with
  | EmptyString => (EmptyString, EmptyString)
  | String c s' =>
      if Ascii.eqb c rbrace then (EmptyString, s)
      else let (i, r) := span_ident s' in (String c i, r)
  end.

(** One alternative of the group followed by [:([^}]+)\}]. The run is greedy
    and everything in it differs from the brace, so giving characters back
    cannot make the final [\}] match: the run must be non-empty and be
    followed by the brace at once. *)
Definition match_tail (k : kind) (s : string) : option (kind * string * string) :=
  match strip_prefix (kind_token k ++ ":") s with
  | None => None
  | Some s2 =>
      match span_ident s2 with
      | (String c i, String b rest) =>
          if Ascii.eqb b rbrace then Some (k, String c i, rest) else None
      | _ => None
      end
  end.

(** [CITE_PATTERN.match(s)]: a match anchored at the head of [s], giving
    group 1, group 2 and the text after the match. *)
Definition match_cite (s : string) : option (kind * string * string) :=
  match strip_prefix "{cite:" s with
  | None => None
  | Some s1 =>
      match match_tail PMID s1 with
      | Some r => Some r
      | None => match_tail DOI s1
      end
  end.

(** What [CITE_PATTERN.sub] sees, left to right: a character outside every
    match, copied as it is, or a match with its two groups. *)
Inductive segment :=
| Lit (c : ascii)
| Cite (k : kind) (ident : string).

(** Leftmost, non-overlapping matches. After a match the scan resumes behind
    it; elsewhere it moves one character on. The counter bounds the number of
    steps and [scan] starts it above the length of the text. *)
Fixpoint scan_steps (n : nat) (s : string) : list segment :=
  match n with
  | O => []
  | S n' =>
      match match_cite s with
      | Some (k, ident, rest) => Cite k ident :: scan_steps n' rest
      | None =>
          match s with
          | EmptyString => []
          | String c s' => Lit c :: scan_steps n' s'
          end
      end
  end.

Definition scan (s : string) : list segment := scan_steps (S (String.length s)) s.

(** *** Numbering *)

Definition _key (k : string) (ident : string) : string :=
  k ++ ":" ++ strip ident.

(** The rendered marker: [f"[{num}]"] or [f"({num})"]. *)
Definition marker (in_text_format : string) (num : nat) : string :=
  if String.eqb in_text_format "bracket"
  then "[" ++ str_of_nat num ++ "]"
  else "(" ++ str_of_nat num ++ ")".

(** The closure [repl] of [re_number_citations]: it reads and updates the
    dictionary and the counter of the enclosing call. *)
Definition repl (in_text_format : string) (key_to_num : dict string nat) (next_num : nat)
    (k : kind) (ident : string) : string * dict string nat * nat :=
  let key := _key (kind_token k) ident in
  match dict_get key_to_num key with
  | None => (marker in_text_format next_num, dict_set key_to_num key next_num, S next_num)
  | Some num => (marker in_text_format num, key_to_num, next_num)
  end.

(** The substitution pass over the scanned text. *)
Fixpoint sub_segments (in_text_format : string) (segs : list segment)
    (key_to_num : dict string nat) (next_num : nat) : string * dict string nat * nat :=
  match segs with
  | [] => (EmptyString, key_to_num, next_num)
  | Lit c :: segs' =>
      let '(out, d, n) := sub_segments in_text_format segs' key_to_num next_num in
      (String c out, d, n)
  | Cite k ident :: segs' =>
      let '(m, d1, n1) := repl in_text_format key_to_num next_num k ident in
      let '(out, d, n) := sub_segments in_text_format segs' d1 n1 in
      (m ++ out, d, n)
  end.

Definition re_number_citations (text : string) (key_to_num : dict string nat)
    (next_num : nat) (in_text_format : string) : string * dict string nat * nat :=
  sub_segments in_text_format (scan text) key_to_num next_num.

(** *** The assembly driver *)

(** [sorted(l)] on integers. *)
Fixpoint insert_sorted (x : nat) (l : list nat) : list nat :=
  match l with
  | [] => [x]
  | y :: l' => if (x <=? y)%nat then x :: l else y :: insert_sorted x l'
  end.

Definition sorted (l : list nat) : list nat := fold_right insert_sorted [] l.

Definition canonical_order : list string :=
  ["Introduction"; "Methods"; "Results"; "Discussion"; "Conclusion"].

(** The first loop: the sections of [order] that are present and not blank,
    each stripped and renumbered with the one dictionary and counter. *)
Definition number_section (in_text_format : string) (drafts : dict string string)
    (st : dict string nat * nat * dict string string) (sec : string)
    : dict string nat * nat * dict string string :=
  let '(key_to_num, next_num, numbered) := st in
  match dict_get drafts sec with
  | None => st
  | Some t =>
      if blank t then st
      else
        let sec_text := strip t in
        let '(sec_text, key_to_num, next_num) :=
          re_number_citations sec_text key_to_num next_num in_text_format in
        (key_to_num, next_num, dict_set numbered sec sec_text)
  end.

(** The second loop: the pool indexed by the keys of its identifiers. *)
Definition index_citation (key_to_citation : dict string Citation) (cu : CitationUse)
    : dict string Citation :=
  let c := citation cu in
  let key_to_citation :=
    match pmid c with
    | Some p => if truthy p then dict_set key_to_citation (_key "PMID" p) c
                else key_to_citation
    | None => key_to_citation
    end in
  match doi c with
  | Some d => if truthy d then dict_set key_to_citation (_key "DOI" d) c
              else key_to_citation
  | None => key_to_citation
  end.

Definition missing_note : string := " (Missing metadata; please fix in CitationPlan).".

(** One iteration of the last loop. [num_to_key[num]] is a lookup of a key
    taken from the dictionary itself; [None] stands for the [KeyError] that
    cannot occur. *)
Definition reference_entry (num_to_key : dict nat string)
    (key_to_citation : dict string Citation) (num : nat) : option string :=
  match dict_get num_to_key num with
  | None => None
  | Some key =>
      match dict_get key_to_citation key with
      | Some c => Some (str_of_nat num ++ ". " ++ format_vancouver_reference c)
      | None => Some (str_of_nat num ++ ". " ++ key ++ missing_note)
      end
  end.

Fixpoint collect {A : Type} (l : list (option A)) : option (list A) :=
  match l with
  | [] => Some []
  | None :: _ => None
  | Some x :: l' => match collect l' with Some r => Some (x :: r) | None => None end
  end.

Definition build_order (drafts : dict string string) (include_abstract_citations : bool)
    : list string :=
  if include_abstract_citations && dict_mem drafts "Abstract"
  then ("Abstract" :: canonical_order)%list
  else canonical_order.

Definition number_all (journal : JournalSpec) (drafts : dict string string)
    (include_abstract_citations : bool) : dict string nat * nat * dict string string :=
  fold_left (number_section (in_text_format (references journal)) drafts)
    (build_order drafts include_abstract_citations) ([], 1%nat, []).

Definition number_drafts_and_build_references (journal : JournalSpec)
    (drafts : dict string string) (citation_plan : CitationPlan)
    (include_abstract_citations : bool) : option (dict string string * list string) :=
  let '(key_to_num, next_num, numbered) :=
    number_all journal drafts include_abstract_citations in
  let key_to_citation := fold_left index_citation (selected citation_plan) [] in
  let num_to_key : dict nat string :=
    fold_left (fun d kn => dict_set d (snd kn) (fst kn)) key_to_num [] in
  match collect (map (reference_entry num_to_key key_to_citation)
                     (sorted (dict_keys num_to_key))) with
  | Some refs => Some (numbered, refs)
  | None => None
  end.

End Vancouver.

(** ** utils.py and similarity.py *)

Module Similarity.
Import Py.

(** *** [normalize_whitespace] *)

Definition CR : ascii := "013"%char.
Definition LF : ascii := "010"%char.
Definition TAB : ascii := "009"%char.

(** [text.replace("\r\n", "\n")] *)
Fixpoint replace_crlf (s : string) : string :=
  match s with
  | EmptyString => EmptyString
  | String c s' =>
      match s' with
      | String c' s'' =>
          if Ascii.eqb c CR && Ascii.eqb c' LF then String LF (replace_crlf s'')
          else String c (replace_crlf s')
      | EmptyString => String c EmptyString
      end
  end.

Definition is_blank (c : ascii) : bool := Ascii.eqb c " " || Ascii.eqb c TAB.

(** [re.sub(r"[ \t]+", " ", text)]; the flag tells that the run the scan is
    in has been replaced already. *)
Fixpoint collapse_blanks (inside : bool) (s : string) : string :=
  match s with
  | EmptyString => EmptyString
  | String c s' =>
      if is_blank c then
        if inside then collapse_blanks true s'
        else String " " (collapse_blanks true s')
      else String c (collapse_blanks false s')
  end.

(** [re.sub(r"\n{3,}", "\n\n", text)]: of a run of line feeds the first two
    stay; [seen] counts the line feeds of the current run. *)
Fixpoint squeeze_newlines (seen : nat) (s : string) : string :=
  match s with
  | EmptyString => EmptyString
  | String c s' =>
      if Ascii.eqb c LF then
        if (seen <? 2)%nat then String c (squeeze_newlines (S seen) s')
        else squeeze_newlines seen s'
      else String c (squeeze_newlines 0 s')
  end.

Definition normalize_whitespace (text : string) : string :=
  strip (squeeze_newlines 0 (collapse_blanks false (replace_crlf text))).

(** *** Tokens *)

(** [str.lower] on one character below 256: A..Z and the capital letters of
    Latin-1 move up by 32. *)
Definition lower_char (c : ascii) : ascii :=
  let n := nat_of_ascii c in
  if (((65 <=? n) && (n <=? 90)) || ((192 <=? n) && (n <=? 214))
      || ((216 <=? n) && (n <=? 222)))%nat
  then ascii_of_nat (n + 32) else c.

Fixpoint lower (s : string) : string :=
  match s with
  | EmptyString => EmptyString
  | String c s' => String (lower_char c) (lower s')
  end.

(** The class [[a-z0-9]]. *)
Definition is_token_char (c : ascii) : bool :=
  let n := nat_of_ascii c in
  (((97 <=? n) && (n <=? 122)) || ((48 <=? n) && (n <=? 57)))%nat.

(** [re.findall(r"[a-z0-9]+", s)]: the maximal runs, left to right; [cur] is
    the run being read. *)
Fixpoint findall_alnum (cur : string) (s : string) : list string :=
  match s with
  | EmptyString => if truthy cur then [cur] else []
  | String c s' =>
      if is_token_char c then findall_alnum (cur ++ String c EmptyString) s'
      else ((if truthy cur then [cur] else []) ++ findall_alnum EmptyString s')%list
  end.

Definition _tokens (text : string) : list string :=
  findall_alnum EmptyString (normalize_whitespace (lower text)).

(** *** Hashing *)

Definition mask64 : Z := 0xFFFFFFFFFFFFFFFF.
Definition fnv_offset : Z := 1469598103934665603.
Definition fnv_prime : Z := 1099511628211.

Definition fnv_step (h x : Z) : Z := Z.land (Z.lxor h x * fnv_prime) mask64.

Fixpoint hash_chars (h : Z) (s : string) : Z :=
  match s with
  | EmptyString => h
  | String ch s' => hash_chars (fnv_step h (Z.of_nat (nat_of_ascii ch))) s'
  end.

(** [l[i]] with Python's indexing: a negative index counts from the end, an
    index out of range raises. *)
Definition py_index {A : Type} (l : list A) (i : Z) : option A :=
  let n := Z.of_nat (length l) in
  if (i <? - n)%Z || (n <=? i)%Z then None
  else nth_error l (Z.to_nat (if (i <? 0)%Z then i + n else i)%Z).

(** [list(range(a, b))] *)
Definition zrange (a b : Z) : list Z :=
  map (fun j => (a + Z.of_nat j)%Z) (seq 0 (Z.to_nat (b - a)%Z)).

Definition _hash_ngram (tokens : list string) (start k : Z) : option Z :=
  fold_left
    (fun (oh : option Z) (i : Z) =>
       match oh with
       | None => None
       | Some h =>
           match py_index tokens i with
           | None => None
           | Some tok => Some (fnv_step (hash_chars h tok) 0xFF)
           end
       end)
    (zrange start (start + k)%Z) (Some fnv_offset).

(** *** Winnowing *)

(** [l[i:j]] *)
Definition py_slice {A : Type} (l : list A) (i j : Z) : list A :=
  let n := Z.of_nat (length l) in
  let clamp x := (if x <? 0 then Z.max 0 (x + n) else Z.min x n)%Z in
  let lo := clamp i in
  let hi := clamp j in
  firstn (Z.to_nat (hi - lo)%Z) (skipn (Z.to_nat lo) l).

(** [min(l)]; [None] is the [ValueError] on an empty list. *)
Fixpoint py_min (l : list Z) : option Z :=
  match l with
  | [] => None
  | x :: l' => match py_min l' with
               | None => Some x
               | Some m => Some (if (m <? x)%Z then m else x)
               end
  end.

(** [l.index(x)]; [None] is the [ValueError] when [x] is absent. *)
Fixpoint py_list_index (l : list Z) (x : Z) : option Z :=
  match l with
  | [] => None
  | y :: l' => if (y =? x)%Z then Some 0%Z
               else match py_list_index l' x with
                    | Some p => Some (p + 1)%Z
                    | None => None
                    end
  end.

Record winnow_state := {
  fps : gset Z;
  min_hash : option Z;
  min_pos : Z
}.

(** The body of the winnowing loop at window start [i]. *)
Definition winnow_step (hashes : list Z) (window : Z) (st : winnow_state) (i : Z)
    : option winnow_state :=
  let window_hashes := py_slice hashes i (i + window)%Z in
  match py_min window_hashes with
  | None => None
  | Some m =>
      match py_list_index window_hashes m with
      | None => None
      | Some off =>
          let pos := (i + off)%Z in
          if negb (pos =? min_pos st)%Z || negb (bool_decide (Some m = min_hash st))
          then Some {| fps := {[m]} ∪ fps st; min_hash := Some m; min_pos := pos |}
          else Some st
      end
  end.

Fixpoint winnow_loop (hashes : list Z) (window : Z) (st : winnow_state)
    (starts : list Z) : option winnow_state :=
  match starts with
  | [] => Some st
  | i :: starts' =>
      match winnow_step hashes window st i with
      | None => None
      | Some st' => winnow_loop hashes window st' starts'
      end
  end.

(** The list comprehension of shingle hashes. *)
Fixpoint all_hashes (toks : list string) (k : Z) (starts : list Z) : option (list Z) :=
  match starts with
  | [] => Some []
  | i :: starts' =>
      match _hash_ngram toks i k with
      | None => None
      | Some h => match all_hashes toks k starts' with
                  | None => None
                  | Some hs => Some (h :: hs)
                  end
      end
  end.

Definition winnow_fingerprints (text : string) (k window : Z) : option (gset Z) :=
  let toks := _tokens text in
  let ntoks := Z.of_nat (length toks) in
  if (ntoks <? k)%Z then Some ∅
  else
    match all_hashes toks k (zrange 0 (ntoks - k + 1)%Z) with
    | None => None
    | Some hashes =>
        let nh := Z.of_nat (length hashes) in
        if (nh <=? window)%Z then Some (list_to_set hashes)
        else
          match winnow_loop hashes window
                  {| fps := ∅; min_hash := None; min_pos := (-1)%Z |}
                  (zrange 0 (nh - window + 1)%Z) with
          | None => None
          | Some st => Some (fps st)
          end
    end.

(** *** Comparison *)

Definition jaccard (a b : gset Z) : spec_float :=
  if bool_decide (a = ∅) && bool_decide (b = ∅) then Double.zero
  else
    let inter := size (a ∩ b) in
    let union := size (a ∪ b) in
    if (union =? 0)%nat then Double.zero
    else Double.truediv inter union.

Record SimilarityResult := {
  name_a : string;
  name_b : string;
  score : spec_float
}.

Definition similarity_score (text_a text_b : string) (k window : Z)
    : option spec_float :=
  match winnow_fingerprints text_a k window with
  | None => None
  | Some fa =>
      match winnow_fingerprints text_b k window with
      | None => None
      | Some fb => Some (jaccard fa fb)
      end
  end.

(** The inner loop over [sources.items()] for one generated text. *)
Fixpoint report_row (ga ta : string) (sources : dict string string)
    (threshold : spec_float)
    (results : list SimilarityResult) : option (list SimilarityResult) :=
  match sources with
  | [] => Some results
  | (sb, tb) :: sources' =>
      if blank tb then report_row ga ta sources' threshold results
      else
        match similarity_score ta tb 5 4 with
        | None => None
        | Some sc =>
            report_row ga ta sources' threshold
              (if Double.ge sc threshold
               then push results {| name_a := ga; name_b := sb; score := sc |}
               else results)
        end
  end.

(** The outer loop over [generated.items()]. *)
Fixpoint report_rows (generated sources : dict string string)
    (threshold : spec_float)
    (results : list SimilarityResult) : option (list SimilarityResult) :=
  match generated with
  | [] => Some results
  | (ga, ta) :: generated' =>
      if blank ta then report_rows generated' sources threshold results
      else
        match report_row ga ta sources threshold results with
        | None => None
        | Some results' => report_rows generated' sources threshold results'
        end
  end.

(** [results.sort(key=lambda x: x.score, reverse=True)]: the sort compares
    keys with [<] and is stable, so an entry goes behind the entries whose
    score its own is below, and in front of the first other one. *)
Fixpoint insert_desc (x : SimilarityResult) (l : list SimilarityResult)
    : list SimilarityResult :=
  match l with
  | [] => [x]
  | y :: l' =>
      if Double.lt (score x) (score y) then y :: insert_desc x l' else x :: l
  end.

Definition sort_desc (l : list SimilarityResult) : list SimilarityResult :=
  fold_right insert_desc [] l.

Definition similarity_report (generated sources : dict string string)
    (threshold : spec_float)
    : option (list SimilarityResult) :=
  match report_rows generated sources threshold [] with
  | None => None
  | Some results => Some (sort_desc results)
  end.

End Similarity.

(** * Vocabulary of the statements *)

(** ** The end-to-end scenario *)

Module Scenario.
Import Py Vancouver.

Definition introduction : string :=
  "Prior work {cite:PMID:111} showed X. {cite:DOI:10.1/ab} confirmed it.".
Definition methods : string := "We repeated {cite:PMID:111}.".

Definition drafts : dict string string :=
  [("Introduction", introduction); ("Methods", methods)].

Definition bracket_journal : JournalSpec :=
  {| journal_name := "Journal";
     references := {| style := "Vancouver"; max_count := 30;
                      in_text_format := "bracket"; allow_classic_exceptions := 2 |} |}.

Definition empty_plan : CitationPlan := {| plan_max_count := 30; selected := [] |}.

(** A plan whose only record answers for PMID 111. *)
Definition record_111 : Citation :=
  {| pmid := Some "111"; doi := None; title := "Robotic rectal resection.";
     authors := ["Kim NK"; "Lee JH"]; journal := Some "Annals of Surgery";
     journal_iso_abbrev := Some "Ann Surg"; year := Some 2019%Z;
     volume := Some "270"; issue := Some "3"; pages := Some "101-9";
     publication_types := []; url := None; abstract := None |}.

Definition plan_111 : CitationPlan :=
  {| plan_max_count := 30;
     selected := [ {| citation := record_111; use_for := ["Background"]; priority := 1 |} ] |}.


End Scenario.

Module FormatterSpec.
Import Py Vancouver.

(** A record that has a title and nothing else. *)
Definition title_only (t : string) : Citation :=
  {| pmid := None; doi := None; title := t; authors := [];
     journal := None; journal_iso_abbrev := None; year := None;
     volume := None; issue := None; pages := None;
     publication_types := []; url := None; abstract := None |}.

Fixpoint all_chars (p : ascii -> bool) (s : string) : bool :=
  match s with
  | EmptyString => true
  | String c s' => p c && all_chars p s'
  end.

(** [c in s] for one character. *)
Fixpoint occurs (c : ascii) (s : string) : bool :=
  match s with
  | EmptyString => false
  | String c' s' => Ascii.eqb c c' || occurs c s'
  end.

(** No two whitespace characters in a row, and no whitespace in front. *)
Fixpoint no_double_space (s : string) : bool :=
  match s with
  | EmptyString => true
  | String c s' =>
      match s' with
      | EmptyString => true
      | String c' _ => negb (isspace c && isspace c')
      end && no_double_space s'
  end.

Definition no_leading_space (s : string) : bool :=
  match s with
  | EmptyString => true
  | String c _ => negb (isspace c)
  end.

End FormatterSpec.

Module ScannerSpec.
Import Py Vancouver FormatterSpec.

(** A stretch of text copied as it is. *)
Fixpoint lits (s : string) : list segment :=
  match s with
  | EmptyString => []
  | String c s' => Lit c :: lits s'
  end.

(** The text of a placeholder with the given kind token and identifier. *)
Definition tag (kind_text ident : string) : string :=
  "{cite:" ++ kind_text ++ ":" ++ ident ++ "}".

(** Every opening brace is followed, later in the same text, by a closing
    brace: no tag is left open at the end. *)
Fixpoint closed (s : string) : bool :=
  match s with
  | EmptyString => true
  | String c s' => (if Ascii.eqb c lbrace then occurs rbrace s' else true) && closed s'
  end.

End ScannerSpec.

Module NumberingSpec.
Import Py Vancouver.

(** The identity of a placeholder: its kind and its identifier, trimmed. *)
Definition identity : Type := kind * string.

Definition identity_of (k : kind) (ident : string) : identity := (k, strip ident).

(** The dictionary key the code builds for an identity. *)
Definition key_of (id : identity) : string := kind_token (fst id) ++ ":" ++ snd id.

(** The identities of the placeholders of a scanned text, left to right. *)
Fixpoint occurrences (segs : list segment) : list identity :=
  match segs with
  | [] => []
  | Lit _ :: segs' => occurrences segs'
  | Cite k ident :: segs' => identity_of k ident :: occurrences segs'
  end.

Definition citations_in (text : string) : list identity := occurrences (scan text).

Fixpoint mem (x : identity) (l : list identity) : bool :=
  match l with
  | [] => false
  | y :: l' => bool_decide (y = x) || mem x l'
  end.

(** First appearances: the elements of [l], in order, that are neither in
    [seen] nor earlier in [l]. *)
Fixpoint first_new (seen l : list identity) : list identity :=
  match l with
  | [] => []
  | x :: l' =>
      if mem x seen then first_new seen l'
      else x :: first_new (seen ++ [x])%list l'
  end.

(** The sections of [order] that are processed, each with its trimmed text:
    those present in [drafts] and not blank. *)
Definition processed_in (drafts : dict string string) (order : list string)
    : list (string * string) :=
  flat_map
    (fun sec =>
       match dict_get drafts sec with
       | Some t => if blank t then [] else [(sec, strip t)]
       | None => []
       end)
    order.

Definition processed (drafts : dict string string) (include_abstract_citations : bool)
    : list (string * string) :=
  processed_in drafts (build_order drafts include_abstract_citations).

(** All placeholder identities of the processed sections, in reading order,
    and their first appearances. *)
Definition cited (drafts : dict string string) (include_abstract_citations : bool)
    : list identity :=
  flat_map (fun st => citations_in (snd st)) (processed drafts include_abstract_citations).

Definition cited_once (drafts : dict string string) (include_abstract_citations : bool)
    : list identity :=
  first_new [] (cited drafts include_abstract_citations).

(** The numbering that gives the i-th identity of [ids] the number i. *)
Definition numbering (ids : list identity) : dict string nat :=
  combine (map key_of ids) (seq 1 (length ids)).

(** The text in which every placeholder is replaced by the marker of the
    number that [key_to_num] binds to its identity; [None] if one is unbound. *)
Fixpoint render (in_text_format : string) (key_to_num : dict string nat)
    (segs : list segment) : option string :=
  match segs with
  | [] => Some EmptyString
  | Lit c :: segs' =>
      match render in_text_format key_to_num segs' with
      | Some out => Some (String c out)
      | None => None
      end
  | Cite k ident :: segs' =>
      match dict_get key_to_num (key_of (identity_of k ident)),
            render in_text_format key_to_num segs' with
      | Some num, Some out => Some (marker in_text_format num ++ out)
      | _, _ => None
      end
  end.

(** What is true of a processed section [st] and its entry [nt] of the
    output map: same name, and the text rendered with the numbering. *)
Definition rewritten (fmt : string) (key_to_num : dict string nat)
    (st nt : string * string) : Prop :=
  fst nt = fst st /\ render fmt key_to_num (scan (snd st)) = Some (snd nt).

(** A record of the pool answers for an identity: the identifier of that
    kind is there, is not empty, and trims to the identifier of the identity. *)
Definition answers (c : Citation) (id : identity) : Prop :=
  match fst id with
  | PMID => exists p, pmid c = Some p /\ p <> "" /\ strip p = snd id
  | DOI => exists p, doi c = Some p /\ p <> "" /\ strip p = snd id
  end.

(** The key of an identifier of the pool is the given key. *)
Definition key_answers (c : Citation) (key : string) : Prop :=
  (exists p, pmid c = Some p /\ truthy p = true /\ _key "PMID" p = key)
  \/ (exists p, doi c = Some p /\ truthy p = true /\ _key "DOI" p = key).

Definition pool (plan : CitationPlan) : list Citation := map citation (selected plan).

(** The entry of the reference list for a number and the identity bound to
    it, given the index of the pool. *)
Definition entry_for (key_to_citation : dict string Citation) (num : nat) (id : identity)
    : string :=
  match dict_get key_to_citation (key_of id) with
  | Some c => str_of_nat num ++ ". " ++ format_vancouver_reference c
  | None => str_of_nat num ++ ". " ++ key_of id ++ missing_note
  end.

End NumberingSpec.

Module SimilaritySpec.
Import Py Similarity.

(** The shingle of [k] tokens that starts at token [i], and its hash: what
    [_hash_ngram] computes when the indices are in range. *)
Definition shingle (toks : list string) (k i : Z) : list string :=
  firstn (Z.to_nat k) (skipn (Z.to_nat i) toks).

Definition hash_tokens (l : list string) : Z :=
  fold_left (fun h tok => fnv_step (hash_chars h tok) 0xFF) l fnv_offset.

Definition shingle_hash (toks : list string) (k i : Z) : Z :=
  hash_tokens (shingle toks k i).

(** No character of the class [[a-z0-9]]. *)
Definition tokenless (s : string) : bool :=
  FormatterSpec.all_chars (fun c => negb (is_token_char c)) s.

(** What the winnowing loop keeps true: once a window start has been handled,
    a fingerprint has been recorded. *)
Definition recorded (st : winnow_state) : Prop := (min_pos st < 0)%Z \/ fps st <> ∅.

Definition sample_text : string :=
  "Robotic surgery reduced blood loss and length of hospital stay in this cohort.".

(** The default threshold [0.12]: the double nearest to 12/100. *)
Definition threshold_012 : spec_float :=
  S754_finite false 8646911284551352%positive (-56)%Z.

End SimilaritySpec.

(** * Properties *)

(** ** Strings *)

Section StringFacts.

Lemma sapp_nil_l (s : string) : "" ++ s = s.
Proof. reflexivity. Qed.

Lemma sapp_cons (c : ascii) (s t : string) : String c s ++ t = String c (s ++ t).
Proof. reflexivity. Qed.

Lemma sapp_nil_r (s : string) : s ++ "" = s.
Proof. induction s as [|c s IH]; [reflexivity|]. rewrite sapp_cons, IH. reflexivity. Qed.

Lemma sapp_assoc (s t u : string) : (s ++ t) ++ u = s ++ (t ++ u).
Proof.
  induction s as [|c s IH]; [reflexivity|].
  rewrite !sapp_cons, IH. reflexivity.
Qed.

Lemma slength_app (s t : string) :
  String.length (s ++ t) = (String.length s + String.length t)%nat.
Proof.
  induction s as [|c s IH]; [reflexivity|].
  rewrite sapp_cons. simpl. rewrite IH. reflexivity.
Qed.

End StringFacts.


Section C1.
Import Py Vancouver Scenario.

Lemma number_all_scenario (j : JournalSpec) (b : bool) :
  in_text_format (references j) = "bracket" ->
  number_all j drafts b =
    ([("PMID:111", 1%nat); ("DOI:10.1/ab", 2%nat)], 3%nat,
     [("Introduction", "Prior work [1] showed X. [2] confirmed it.");
      ("Methods", "We repeated [1].")]).
Proof.
  intros Hfmt. unfold number_all. rewrite Hfmt.
  destruct b; vm_compute; reflexivity.
Qed.

(** C1. The two-section scenario in bracket style: both texts are rewritten as
    the specification says and the reference list has exactly two entries,
    numbered 1 and 2 in that order, whatever the citation plan holds. *)
Theorem scenario_two_sections (j : JournalSpec) (plan : CitationPlan) (b : bool) :
  in_text_format (references j) = "bracket" ->
  exists r1 r2 : string,
    number_drafts_and_build_references j drafts plan b =
      Some ([("Introduction", "Prior work [1] showed X. [2] confirmed it.");
             ("Methods", "We repeated [1].")],
            [r1; r2])
    /\ (exists body, r1 = "1. " ++ body)
    /\ (exists body, r2 = "2. " ++ body).
Proof.
  intros Hfmt. unfold number_drafts_and_build_references.
  rewrite (number_all_scenario j b Hfmt).
  set (ktc := fold_left index_citation (selected plan) []).
  change (sorted _) with [1%nat; 2%nat].
  unfold reference_entry, map.
  change (dict_get _ 1%nat) with (Some "PMID:111").
  change (dict_get _ 2%nat) with (Some "DOI:10.1/ab").
  change (str_of_nat 1) with "1". change (str_of_nat 2) with "2".
  cbv beta iota.
  destruct (dict_get ktc "PMID:111") as [c1|], (dict_get ktc "DOI:10.1/ab") as [c2|];
    unfold collect; do 2 eexists; (split; [reflexivity|]); split; eexists; reflexivity.
Qed.

Lemma scenario_two_sections_witness :
  exists r1 r2 : string,
    number_drafts_and_build_references bracket_journal drafts empty_plan false =
      Some ([("Introduction", "Prior work [1] showed X. [2] confirmed it.");
             ("Methods", "We repeated [1].")],
            [r1; r2])
    /\ (exists body, r1 = "1. " ++ body)
    /\ (exists body, r2 = "2. " ++ body).
Proof. apply (scenario_two_sections bracket_journal empty_plan false). reflexivity. Defined.

End C1.

(** ** The fingerprint engine *)

Section Fingerprints.
Import Py Similarity SimilaritySpec.

Lemma zrange_nat (a b : Z) :
  (0 <= a)%Z ->
  zrange a b = map Z.of_nat (seq (Z.to_nat a) (Z.to_nat (b - a))).
Proof.
  intros Ha. unfold zrange.
  rewrite <- (Nat.add_0_r (Z.to_nat a)) at 1.
  generalize 0%nat as o. generalize (Z.to_nat (b - a)) as n.
  induction n as [|n IH]; intros o; [reflexivity|].
  simpl. f_equal.
  - lia.
  - rewrite IH. f_equal. f_equal. lia.
Qed.

Lemma length_zrange (a b : Z) : length (zrange a b) = Z.to_nat (b - a).
Proof. unfold zrange. rewrite length_map, length_seq. reflexivity. Qed.

Lemma in_zrange (a b i : Z) : In i (zrange a b) <-> (a <= i < b)%Z.
Proof.
  unfold zrange. rewrite in_map_iff. split.
  - intros (j & <- & Hj). apply in_seq in Hj. lia.
  - intros Hi. exists (Z.to_nat (i - a)). split; [lia|]. apply in_seq. lia.
Qed.

Lemma py_index_nat {A : Type} (l : list A) (i : nat) :
  (i < length l)%nat -> py_index l (Z.of_nat i) = nth_error l i.
Proof.
  intros Hi. unfold py_index.
  destruct (Z.ltb_spec (Z.of_nat i) (- Z.of_nat (length l))); [lia|].
  destruct (Z.leb_spec (Z.of_nat (length l)) (Z.of_nat i)); [lia|].
  destruct (Z.ltb_spec (Z.of_nat i) 0); [lia|].
  simpl. rewrite Nat2Z.id. reflexivity.
Qed.

Lemma skipn_nth_error {A : Type} (l : list A) (i : nat) (x : A) :
  nth_error l i = Some x -> skipn i l = x :: skipn (S i) l.
Proof.
  revert i. induction l as [|y l IH]; intros [|i] H; simpl in *; try discriminate.
  - injection H as ->. rewrite skipn_O. reflexivity.
  - apply IH. exact H.
Qed.

Lemma hash_fold_in_range (toks : list string) (n i : nat) (h : Z) :
  (i + n <= length toks)%nat ->
  fold_left
    (fun (oh : option Z) (j : Z) =>
       match oh with
       | None => None
       | Some h =>
           match py_index toks j with
           | None => None
           | Some tok => Some (fnv_step (hash_chars h tok) 0xFF)
           end
       end)
    (map Z.of_nat (seq i n)) (Some h)
  = Some (fold_left (fun h tok => fnv_step (hash_chars h tok) 0xFF)
            (firstn n (skipn i toks)) h).
Proof.
  revert i h. induction n as [|n IH]; intros i h Hle; [reflexivity|].
  simpl seq. simpl map. simpl fold_left at 1.
  rewrite py_index_nat by lia.
  destruct (nth_error toks i) as [tok|] eqn:Htok.
  - rewrite (skipn_nth_error _ _ _ Htok). simpl firstn. simpl fold_left at 2.
    apply IH. lia.
  - apply nth_error_None in Htok. lia.
Qed.

(** In range, [_hash_ngram] does not raise and hashes the shingle. *)
Lemma hash_ngram_in_range (toks : list string) (k i : Z) :
  (0 <= i)%Z -> (i + k <= Z.of_nat (length toks))%Z ->
  _hash_ngram toks i k = Some (shingle_hash toks k i).
Proof.
  intros Hi Hk. unfold _hash_ngram, shingle_hash, hash_tokens, shingle.
  rewrite zrange_nat by assumption.
  replace (i + k - i)%Z with k by lia.
  destruct (Z.le_gt_cases k 0) as [Hneg|Hpos].
  - replace (Z.to_nat k) with 0%nat by lia. reflexivity.
  - apply hash_fold_in_range. lia.
Qed.

Lemma all_hashes_in_range (toks : list string) (k : Z) (starts : list Z) :
  (forall i, In i starts -> (0 <= i)%Z /\ (i + k <= Z.of_nat (length toks))%Z) ->
  all_hashes toks k starts = Some (map (shingle_hash toks k) starts).
Proof.
  induction starts as [|i starts IH]; intros Hin; [reflexivity|].
  simpl. destruct (Hin i (or_introl eq_refl)) as [H0 Hk].
  rewrite (hash_ngram_in_range _ _ _ H0 Hk).
  rewrite IH; [reflexivity|]. intros i' Hi'. apply Hin. right. exact Hi'.
Qed.

(** The list of shingle hashes of a text with at least [k] tokens. *)
Lemma all_hashes_text (toks : list string) (k : Z) :
  (k <= Z.of_nat (length toks))%Z ->
  all_hashes toks k (zrange 0 (Z.of_nat (length toks) - k + 1)) =
    Some (map (shingle_hash toks k) (zrange 0 (Z.of_nat (length toks) - k + 1))).
Proof.
  intros Hk. apply all_hashes_in_range. intros i Hi. apply in_zrange in Hi. lia.
Qed.

(** C8. A text with fewer than [k] tokens has the empty fingerprint set, and
    no exception is raised, whatever the window. *)
Theorem short_text_empty_fingerprints (text : string) (k window : Z) :
  (Z.of_nat (length (_tokens text)) < k)%Z ->
  winnow_fingerprints text k window = Some ∅.
Proof.
  intros Hlt. unfold winnow_fingerprints.
  destruct (Z.ltb_spec (Z.of_nat (length (_tokens text))) k); [reflexivity|lia].
Qed.

Lemma short_text_empty_fingerprints_witness :
  winnow_fingerprints "Propensity score matching, revisited" 5 4 = Some ∅.
Proof.
  apply (short_text_empty_fingerprints "Propensity score matching, revisited" 5 4).
  apply Z.ltb_lt. vm_compute. reflexivity.
Defined.

(** C10. With at least [k] tokens and no more shingles than the window, the
    fingerprint set is the set of all shingle hashes: no minimum is selected
    and no exception is raised. *)
Theorem small_text_not_winnowed (text : string) (k window : Z) :
  let toks := _tokens text in
  let t := Z.of_nat (length toks) in
  (k <= t)%Z -> (t - k + 1 <= window)%Z ->
  winnow_fingerprints text k window =
    Some (list_to_set (map (shingle_hash toks k) (zrange 0 (t - k + 1))))
  /\ length (zrange 0 (t - k + 1)) = Z.to_nat (t - k + 1).
Proof.
  intros toks t Hk Hw. split; [|rewrite length_zrange; f_equal; lia].
  unfold winnow_fingerprints. fold toks. fold t.
  destruct (Z.ltb_spec t k); [lia|].
  unfold t at 1. rewrite (all_hashes_text toks k Hk). fold t.
  rewrite length_map, length_zrange.
  destruct (Z.leb_spec (Z.of_nat (Z.to_nat (t - k + 1 - 0))) window); [reflexivity|lia].
Qed.

Lemma small_text_not_winnowed_witness :
  winnow_fingerprints "robotic versus laparoscopic resection for rectal cancer" 5 4 =
    Some (list_to_set
            (map (shingle_hash
                    (_tokens "robotic versus laparoscopic resection for rectal cancer") 5)
                 (zrange 0 3)))
  /\ length (zrange 0 3) = 3%nat.
Proof.
  apply (small_text_not_winnowed
           "robotic versus laparoscopic resection for rectal cancer" 5 4);
    apply Z.leb_le; vm_compute; reflexivity.
Defined.

End Fingerprints.

(** ** Division of counts in double precision *)

Section DoubleFacts.
Local Open Scope Z_scope.

Lemma digits2_bounds (p : positive) :
  2 ^ (Zpos (digits2_pos p) - 1) <= Zpos p < 2 ^ Zpos (digits2_pos p).
Proof.
  induction p as [p IH|p IH|]; simpl digits2_pos.
  - rewrite Pos2Z.inj_succ. replace (Z.succ (Zpos (digits2_pos p)) - 1) with (Z.succ (Zpos (digits2_pos p) - 1)) by lia.
    rewrite !Z.pow_succ_r by lia. lia.
  - rewrite Pos2Z.inj_succ. replace (Z.succ (Zpos (digits2_pos p)) - 1) with (Z.succ (Zpos (digits2_pos p) - 1)) by lia.
    rewrite !Z.pow_succ_r by lia. lia.
  - simpl. lia.
Qed.

Lemma digits2_unique (p : positive) (k : Z) :
  2 ^ (k - 1) <= Zpos p < 2 ^ k -> Zpos (digits2_pos p) = k.
Proof.
  intros [Hlo Hhi]. pose proof (digits2_bounds p) as [Dlo Dhi].
  set (d := Zpos (digits2_pos p)) in *.
  assert (0 < k) as Hk.
  { destruct (Z.ltb_spec 0 k); [assumption|]. exfalso.
    assert (2 ^ k <= 1) by
      (destruct (Z.eq_dec k 0) as [->|]; [simpl; lia|rewrite Z.pow_neg_r by lia; lia]).
    lia. }
  destruct (Z.lt_trichotomy d k) as [Hlt|[Heq|Hgt]]; [|assumption|].
  - assert (2 ^ d <= 2 ^ (k - 1)) by (apply Z.pow_le_mono_r; lia). lia.
  - assert (2 ^ k <= 2 ^ (d - 1)) by (apply Z.pow_le_mono_r; lia). lia.
Qed.

Lemma iter_xO (m d : positive) : Zpos (Pos.iter xO m d) = Zpos m * 2 ^ Zpos d.
Proof.
  change (Pos.iter xO m d) with (shift_pos d m).
  rewrite shift_pos_correct, Zpower_pos_nat, Zpower_nat_Z, positive_nat_Z. lia.
Qed.

(** A 53-bit mantissa with an exponent in range is unchanged by rounding. *)
Lemma round_aux_exact (s : bool) (m : positive) (e : Z) :
  Zpos (digits2_pos m) = 53 -> -1074 <= e <= 971 ->
  binary_round_aux Double.prec Double.emax s (Zpos m) e loc_Exact = S754_finite s m e.
Proof.
  intros Hd He. unfold binary_round_aux, shr_fexp, fexp, emin, Double.prec, Double.emax.
  cbn [Zdigits2 shr_record_of_loc]. rewrite Hd.
  replace (Z.max (53 + e - 53) (3 - 1024 - 53) - e) with 0 by lia.
  cbn [shr loc_of_shr_record shr_m round_nearest_even Zdigits2]. rewrite Hd.
  replace (Z.max (53 + e - 53) (3 - 1024 - 53) - e) with 0 by lia.
  cbn [shr shr_m].
  destruct (Z.leb_spec e (1024 - 53)); [reflexivity|lia].
Qed.


Lemma of_nat_finite (n : nat) :
  0 < Z.of_nat n < 2 ^ 53 ->
  exists m e, Double.of_nat n = S754_finite false m e
    /\ Zpos (digits2_pos m) = 53 /\ -52 <= e <= 0
    /\ Zpos m = Z.of_nat n * 2 ^ (- e)
    /\ 2 ^ (52 + e) <= Z.of_nat n < 2 ^ (53 + e).
Proof.
  intros [Hpos Hlt]. unfold Double.of_nat, binary_normalize.
  destruct (Z.of_nat n) as [|p|p] eqn:Hn; try lia.
  pose proof (digits2_bounds p) as [Dlo Dhi].
  set (d := Zpos (digits2_pos p)) in *.
  assert (1 <= d) as Hd1 by (unfold d; lia).
  assert (d <= 53) as Hd53.
  { destruct (Z.leb_spec d 53); [assumption|].
    assert (2 ^ 53 <= 2 ^ (d - 1)) by (apply Z.pow_le_mono_r; lia). lia. }
  unfold binary_round, shl_align, fexp, emin, Double.prec, Double.emax. fold d.
  assert (Z.max (d + 0 - 53) (3 - 1024 - 53) = d - 53) as -> by lia.
  rewrite Z.sub_0_r.
  destruct (d - 53) as [|q|q] eqn:Hq; try lia.
  - exists p, 0. rewrite round_aux_exact by (fold d; lia).
    assert (d = 53) as Hd by lia. rewrite Hd in *. simpl Z.opp.
    rewrite Z.mul_1_r. repeat split; lia.
  - assert (Zpos (Pos.iter xO p q) = Zpos p * 2 ^ Zpos q) as Hm by apply iter_xO.
    assert (Zpos (digits2_pos (Pos.iter xO p q)) = 53) as Hdig.
    { apply digits2_unique. rewrite Hm.
      assert (53 - 1 = (d - 1) + Zpos q) as -> by lia.
      assert (53 = d + Zpos q) as -> by lia.
      rewrite !Z.pow_add_r by lia.
      assert (0 < 2 ^ Zpos q) by (apply Z.pow_pos_nonneg; lia).
      split; [apply Z.mul_le_mono_nonneg_r; lia|apply Z.mul_lt_mono_pos_r; lia]. }
    exists (Pos.iter xO p q), (Zneg q).
    rewrite round_aux_exact by (assumption || lia).
    split; [reflexivity|]. split; [exact Hdig|]. split; [lia|].
    split; [rewrite Hm; reflexivity|].
    replace (52 + Zneg q) with (d - 1) by lia. replace (53 + Zneg q) with d by lia. lia.
Qed.

Lemma div_self (s1 s2 : bool) (m : positive) (e : Z) :
  SFdiv Double.prec Double.emax (S754_finite false m e) (S754_finite false m e) = Double.one.
Proof.
  unfold SFdiv, SFdiv_core_binary. cbn [Zdigits2 xorb].
  replace (Zpos (digits2_pos m) + e - (Zpos (digits2_pos m) + e)) with 0 by lia.
  rewrite Z.sub_diag.
  change (fexp Double.prec Double.emax 0) with (-53).
  change (Z.min (-53) 0) with (-53). change (0 - -53) with 53. cbv beta iota zeta.
  rewrite Z.shiftl_mul_pow2 by lia.
  assert (Z.div_eucl (Zpos m * 2 ^ 53) (Zpos m) = (2 ^ 53, 0)) as ->.
  { rewrite (surjective_pairing (Z.div_eucl _ _)).
    change (fst (Z.div_eucl ?a ?b)) with (a / b).
    change (snd (Z.div_eucl ?a ?b)) with (a mod b).
    rewrite Z.mul_comm, Z.div_mul, Z.mod_mul by lia. reflexivity. }
  assert (new_location (Zpos m) 0 = loc_Exact) as ->.
  { unfold new_location, new_location_even, new_location_odd.
    destruct (Z.even (Zpos m)); reflexivity. }
  reflexivity.
Qed.

Lemma loc_roundtrip (m : Z) (l : location) :
  loc_of_shr_record (shr_record_of_loc m l) = l /\ shr_m (shr_record_of_loc m l) = m.
Proof. destruct l as [|[]]; split; reflexivity. Qed.

Lemma rne_bounds (m : Z) (l : location) :
  round_nearest_even m l = m \/ round_nearest_even m l = m + 1.
Proof. destruct l as [|[]]; simpl; try destruct (Z.even m); auto. Qed.

(** The renormalisation after rounding: a mantissa of 53 bits stays, 2^53
    becomes 2^52 with the exponent raised. *)
Lemma renormalise (mr e : Z) :
  2 ^ 52 <= mr <= 2 ^ 53 -> -1074 <= e <= 960 ->
  exists m e',
    shr_fexp Double.prec Double.emax mr e loc_Exact = ({| shr_m := Zpos m; shr_r := false; shr_s := false |}, e')
    /\ 2 ^ 52 <= Zpos m < 2 ^ 53
    /\ ((mr < 2 ^ 53 /\ Zpos m = mr /\ e' = e) \/ (mr = 2 ^ 53 /\ Zpos m = 2 ^ 52 /\ e' = e + 1)).
Proof.
  intros [Hlo Hhi] He.
  destruct mr as [|p|p]; try lia.
  destruct (Z.eq_dec (Zpos p) (2 ^ 53)) as [Heq|Hne].
  - assert (p = 9007199254740992%positive) as -> by lia.
    exists 4503599627370496%positive, (e + 1).
    split; [|split; [lia|right; repeat split; lia]].
    unfold shr_fexp, fexp, emin, Double.prec, Double.emax. cbn [Zdigits2].
    rewrite (digits2_unique _ 54) by lia.
    replace (Z.max (54 + e - 53) (3 - 1024 - 53) - e) with 1 by lia.
    reflexivity.
  - exists p, e. split; [|split; [lia|left; repeat split; lia]].
    unfold shr_fexp, fexp, emin, Double.prec, Double.emax. cbn [Zdigits2].
    rewrite (digits2_unique p 53) by (simpl; lia).
    replace (Z.max (53 + e - 53) (3 - 1024 - 53) - e) with 0 by lia.
    reflexivity.
Qed.

Lemma round_aux_shape (q : positive) (e : Z) (l : location) :
  2 ^ 52 <= Zpos q < 2 ^ 54 -> -1074 <= e <= 900 ->
  exists m e',
    binary_round_aux Double.prec Double.emax false (Zpos q) e l = S754_finite false m e'
    /\ 2 ^ 52 <= Zpos m < 2 ^ 53
    /\ e' <= e + 2 /\ (e' = e + 2 -> Zpos m = 2 ^ 52)
    /\ (Zpos q < 2 ^ 53 -> e' <= e + 1 /\ (e' = e + 1 -> Zpos m = 2 ^ 52)).
Proof.
  intros [Hlo Hhi] He. unfold binary_round_aux.
  destruct (Z.ltb_spec (Zpos q) (2 ^ 53)) as [Hsmall|Hbig].
  - (* 53 bits: no shift before rounding *)
    assert (shr_fexp Double.prec Double.emax (Zpos q) e l = (shr_record_of_loc (Zpos q) l, e)) as ->.
    { unfold shr_fexp, fexp, emin, Double.prec, Double.emax. cbn [Zdigits2].
      rewrite (digits2_unique q 53) by (simpl; lia).
      replace (Z.max (53 + e - 53) (3 - 1024 - 53) - e) with 0 by lia. reflexivity. }
    destruct (loc_roundtrip (Zpos q) l) as [-> ->].
    destruct (renormalise (round_nearest_even (Zpos q) l) e) as (m & e' & -> & Hm & Hcase).
    { destruct (rne_bounds (Zpos q) l) as [->| ->]; lia. }
    { lia. }
    cbn [shr_m]. exists m, e'.
    destruct (Z.leb_spec e' (Double.emax - Double.prec)); [|unfold Double.emax, Double.prec in *; lia].
    split; [reflexivity|]. split; [exact Hm|]. lia.
  - (* 54 bits: Double.one shift before rounding *)
    assert (exists p r s, shr_fexp Double.prec Double.emax (Zpos q) e l
                          = ({| shr_m := Zpos p; shr_r := r; shr_s := s |}, e + 1)
                          /\ 2 ^ 52 <= Zpos p < 2 ^ 53) as (p & r & s & -> & Hp).
    { unfold shr_fexp, fexp, emin, Double.prec, Double.emax. cbn [Zdigits2].
      rewrite (digits2_unique q 54) by (simpl; lia).
      replace (Z.max (54 + e - 53) (3 - 1024 - 53) - e) with 1 by lia.
      cbn [shr iter_pos].
      destruct l as [|[]]; destruct q as [p|p|]; try lia; cbn [shr_record_of_loc shr_1];
        eexists _, _, _; (split; [reflexivity|lia]). }
    cbn [shr_m].
    destruct (renormalise
                (round_nearest_even (Zpos p)
                   (loc_of_shr_record {| shr_m := Zpos p; shr_r := r; shr_s := s |}))
                (e + 1)) as (m & e' & -> & Hm & Hcase).
    { destruct (rne_bounds (Zpos p)
                  (loc_of_shr_record {| shr_m := Zpos p; shr_r := r; shr_s := s |}))
        as [->| ->]; lia. }
    { lia. }
    cbn [shr_m]. exists m, e'.
    destruct (Z.leb_spec e' (Double.emax - Double.prec)); [|unfold Double.emax, Double.prec in *; lia].
    split; [reflexivity|]. split; [exact Hm|]. lia.
Qed.

Lemma le_one_shape (m : positive) (e : Z) :
  e <= -52 -> (e = -52 -> Zpos m = 2 ^ 52) ->
  SFleb (S754_finite false m e) Double.one = true /\ SFleb Double.zero (S754_finite false m e) = true.
Proof.
  intros He Hm. split; [|reflexivity].
  unfold SFleb, SFcompare, Double.one.
  destruct (Z.compare_spec e (-52)) as [Heq|Hlt|Hgt]; [|reflexivity|lia].
  assert (m = 4503599627370496%positive) as -> by (specialize (Hm Heq); simpl in Hm; lia).
  reflexivity.
Qed.

Lemma quotient_bounds (m1 m2 q r L : Z) :
  0 < L -> L <= m1 < 2 * L -> L <= m2 < 2 * L ->
  m1 * (2 * L) = m2 * q + r -> 0 <= r < m2 ->
  L <= q < 4 * L /\ (m1 < m2 -> q < 2 * L).
Proof.
  intros HL H1 H2 Heq Hr.
  assert (q < 4 * L) by (apply (Z.mul_lt_mono_pos_l m2); nia).
  assert (L < q + 1) by (apply (Z.mul_lt_mono_pos_l m2); nia).
  split; [lia|]. intros Hlt. apply (Z.mul_lt_mono_pos_l m2); nia.
Qed.

Lemma div_le_one (m1 m2 : positive) (e1 e2 : Z) :
  Zpos (digits2_pos m1) = 53 -> Zpos (digits2_pos m2) = 53 ->
  -52 <= e1 <= 0 -> -52 <= e2 <= 0 ->
  e1 < e2 \/ (e1 = e2 /\ Zpos m1 <= Zpos m2) ->
  SFleb (SFdiv Double.prec Double.emax (S754_finite false m1 e1) (S754_finite false m2 e2)) Double.one = true
  /\ SFleb Double.zero (SFdiv Double.prec Double.emax (S754_finite false m1 e1) (S754_finite false m2 e2)) = true.
Proof.
  intros Hd1 Hd2 He1 He2 Hle.
  destruct (Z.eq_dec e1 e2) as [<-|Hne];
    [destruct (Z.eq_dec (Zpos m1) (Zpos m2)) as [Heq|Hmne]|].
  - injection Heq as <-. rewrite (div_self false false m1 e1). split; reflexivity.
  - (* same exponent, smaller mantissa *)
    pose proof (digits2_bounds m1) as B1. pose proof (digits2_bounds m2) as B2.
    rewrite Hd1 in B1. rewrite Hd2 in B2.
    unfold SFdiv, SFdiv_core_binary. cbn [Zdigits2 xorb]. rewrite Hd1, Hd2.
    unfold fexp, emin, Double.prec, Double.emax.
    replace (Z.min (Z.max (53 + e1 - (53 + e1) - 53) (3 - 1024 - 53)) (e1 - e1)) with (-53) by lia.
    replace (e1 - e1 - -53) with 53 by lia.
    rewrite Z.shiftl_mul_pow2 by lia.
    pose proof (Z.div_eucl_eq (Zpos m1 * 2 ^ 53) (Zpos m2) ltac:(lia)) as Heq.
    pose proof (Z.mod_pos_bound (Zpos m1 * 2 ^ 53) (Zpos m2) ltac:(lia)) as Hb.
    unfold Z.modulo in Hb.
    destruct (Z.div_eucl (Zpos m1 * 2 ^ 53) (Zpos m2)) as [q r].
    assert (2 ^ 52 <= q < 2 ^ 53) as Hq.
    { destruct (quotient_bounds (Zpos m1) (Zpos m2) q r (2 ^ 52)) as [Hq Hq']; lia. }
    destruct q as [|q|q]; try (simpl in Hq; lia).
    destruct (round_aux_shape q (-53) (new_location (Zpos m2) r)) as (m & e & Hr & _ & _ & _ & Hs);
      [lia|lia|].
    unfold Double.prec, Double.emax in Hr. rewrite Hr. apply le_one_shape; lia.
  - (* smaller exponent *)
    pose proof (digits2_bounds m1) as B1. pose proof (digits2_bounds m2) as B2.
    rewrite Hd1 in B1. rewrite Hd2 in B2.
    unfold SFdiv, SFdiv_core_binary. cbn [Zdigits2 xorb]. rewrite Hd1, Hd2.
    unfold fexp, emin, Double.prec, Double.emax.
    replace (Z.min (Z.max (53 + e1 - (53 + e2) - 53) (3 - 1024 - 53)) (e1 - e2))
      with (e1 - e2 - 53) by lia.
    replace (e1 - e2 - (e1 - e2 - 53)) with 53 by lia.
    rewrite Z.shiftl_mul_pow2 by lia.
    pose proof (Z.div_eucl_eq (Zpos m1 * 2 ^ 53) (Zpos m2) ltac:(lia)) as Heq.
    pose proof (Z.mod_pos_bound (Zpos m1 * 2 ^ 53) (Zpos m2) ltac:(lia)) as Hb.
    unfold Z.modulo in Hb.
    destruct (Z.div_eucl (Zpos m1 * 2 ^ 53) (Zpos m2)) as [q r].
    assert (2 ^ 52 <= q < 2 ^ 54) as Hq.
    { destruct (quotient_bounds (Zpos m1) (Zpos m2) q r (2 ^ 52)) as [Hq Hq']; lia. }
    destruct q as [|q|q]; try (simpl in Hq; lia).
    destruct (round_aux_shape q (e1 - e2 - 53) (new_location (Zpos m2) r))
      as (m & e & Hr & _ & Hs1 & Hs2 & _); [lia|lia|].
    unfold Double.prec, Double.emax in Hr. rewrite Hr. apply le_one_shape; lia.
Qed.

(** The quotient of two counts [a <= b], [0 < b < 2^53], lies in [0, 1]. *)
Lemma truediv_bounds (a b : nat) :
  (a <= b)%nat -> 0 < Z.of_nat b < 2 ^ 53 ->
  SFleb Double.zero (Double.truediv a b) = true /\ SFleb (Double.truediv a b) Double.one = true.
Proof.
  intros Hab Hb. unfold Double.truediv.
  destruct (of_nat_finite b Hb) as (m2 & e2 & -> & Hd2 & He2 & Hm2 & Hr2).
  destruct a as [|a].
  - split; reflexivity.
  - destruct (of_nat_finite (S a)) as (m1 & e1 & -> & Hd1 & He1 & Hm1 & Hr1); [lia|].
    assert (e1 <= e2) as Hee.
    { destruct (Z.leb_spec e1 e2); [assumption|].
      assert (2 ^ (53 + e2) <= 2 ^ (52 + e1)) by (apply Z.pow_le_mono_r; lia). lia. }
    destruct (div_le_one m1 m2 e1 e2 Hd1 Hd2 He1 He2) as [H1 H0]; [|auto].
    destruct (Z.eq_dec e1 e2) as [<-|]; [right|left; lia].
    split; [reflexivity|]. rewrite Hm1, Hm2.
    apply Z.mul_le_mono_nonneg_r; [apply Z.pow_nonneg|]; lia.
Qed.

Lemma truediv_self (a : nat) : 0 < Z.of_nat a < 2 ^ 53 -> Double.truediv a a = Double.one.
Proof.
  intros Ha. unfold Double.truediv.
  destruct (of_nat_finite a Ha) as (m & e & -> & _). apply (div_self false false).
Qed.

End DoubleFacts.

(** ** The similarity comparator *)

Section Comparator.
Import Py Similarity.

Lemma union_size_pos (a b : gset Z) : ~ (a = ∅ /\ b = ∅) -> size (a ∪ b) <> 0%nat.
Proof.
  intros Hne Hsz. apply size_empty_inv in Hsz. apply Hne.
  split; apply leibniz_equiv; set_solver.
Qed.

Lemma jaccard_unfold (a b : gset Z) :
  ~ (a = ∅ /\ b = ∅) ->
  jaccard a b = Double.truediv (size (a ∩ b)) (size (a ∪ b)).
Proof.
  intros Hne. unfold jaccard.
  destruct (bool_decide (a = ∅)) eqn:Ha, (bool_decide (b = ∅)) eqn:Hb; simpl;
    try (apply bool_decide_eq_true in Ha); try (apply bool_decide_eq_true in Hb);
    try (exfalso; apply Hne; split; assumption);
    (destruct (Nat.eqb_spec (size (a ∪ b)) 0) as [Hz|_];
     [exfalso; exact (union_size_pos a b Hne Hz) | reflexivity]).
Qed.

Lemma jaccard_empty : jaccard ∅ ∅ = Double.zero.
Proof. reflexivity. Qed.

Lemma jaccard_bounds (a b : gset Z) :
  (Z.of_nat (size (a ∪ b)) < 2 ^ 53)%Z ->
  Double.ge (jaccard a b) Double.zero = true /\ Double.ge Double.one (jaccard a b) = true.
Proof.
  intros Hsize. destruct (decide (a = ∅ /\ b = ∅)) as [[-> ->]|Hne].
  - rewrite jaccard_empty. split; reflexivity.
  - rewrite (jaccard_unfold a b Hne).
    pose proof (union_size_pos a b Hne) as Hu.
    assert (size (a ∩ b) <= size (a ∪ b))%nat as Hle
      by (apply subseteq_size; set_solver).
    apply truediv_bounds; [exact Hle|lia].
Qed.

Lemma jaccard_self (a : gset Z) :
  a <> ∅ -> (Z.of_nat (size a) < 2 ^ 53)%Z -> jaccard a a = Double.one.
Proof.
  intros Ha Hsize.
  assert (~ (a = ∅ /\ a = ∅)) as Hne by (intros [? _]; contradiction).
  rewrite (jaccard_unfold a a Hne).
  pose proof (union_size_pos a a Hne) as Hu.
  assert (a ∩ a = a) as -> by (apply leibniz_equiv; set_solver).
  assert (a ∪ a = a) as Hua by (apply leibniz_equiv; set_solver).
  rewrite Hua in *. apply truediv_self. lia.
Qed.

(** C7. For sets a machine can hold (fewer than 2^53 elements, so that the
    two sizes are doubles without rounding) the score is the Jaccard index,
    the size of the intersection divided by the size of the union in double
    arithmetic; it lies between 0.0 and 1.0; it is 0.0 for two empty sets; it
    is 1.0 for a non-empty set and itself. *)
Theorem jaccard_index (a b : gset Z) :
  (Z.of_nat (size (a ∪ b)) < 2 ^ 53)%Z ->
  (~ (a = ∅ /\ b = ∅) ->
     jaccard a b = Double.truediv (size (a ∩ b)) (size (a ∪ b)))
  /\ Double.ge (jaccard a b) Double.zero = true
  /\ Double.ge Double.one (jaccard a b) = true
  /\ jaccard ∅ ∅ = Double.zero
  /\ (a = b -> a <> ∅ -> jaccard a b = Double.one).
Proof.
  intros Hsize.
  split; [apply jaccard_unfold|].
  split; [apply jaccard_bounds; exact Hsize|].
  split; [apply jaccard_bounds; exact Hsize|].
  split; [apply jaccard_empty|].
  intros <- Ha. apply jaccard_self; [exact Ha|].
  assert (a ∪ a = a) as Hua by (apply leibniz_equiv; set_solver).
  rewrite Hua in Hsize. exact Hsize.
Qed.

Lemma jaccard_index_witness :
  jaccard {[1%Z; 2%Z]} {[2%Z; 3%Z]} = Double.truediv 1 3
  /\ Double.ge Double.one (jaccard {[1%Z; 2%Z]} {[2%Z; 3%Z]}) = true
  /\ jaccard {[7%Z]} {[7%Z]} = Double.one.
Proof.
  destruct (jaccard_index {[1%Z; 2%Z]} {[2%Z; 3%Z]}) as (Hidx & _ & Hone & _).
  { apply Z.ltb_lt. vm_compute. reflexivity. }
  destruct (jaccard_index {[7%Z]} {[7%Z]}) as (_ & _ & _ & _ & Hself).
  { apply Z.ltb_lt. vm_compute. reflexivity. }
  split; [|split; [exact Hone|]].
  - apply Hidx. vm_compute. intros [H1 _]. discriminate H1.
  - apply Hself; [reflexivity|]. vm_compute. intros H1. discriminate H1.
Defined.

End Comparator.

(** ** Winnowing with a positive window *)

Section Winnowing.
Import Py Similarity SimilaritySpec.

Lemma py_slice_nonempty {A : Type} (l : list A) (i w : Z) :
  (0 <= i < Z.of_nat (length l))%Z -> (0 < w)%Z -> py_slice l i (i + w) <> [].
Proof.
  intros Hi Hw. unfold py_slice.
  destruct (Z.ltb_spec i 0); [lia|].
  destruct (Z.ltb_spec (i + w) 0); [lia|].
  set (n := Z.of_nat (length l)) in *.
  replace (Z.min i n) with i by lia.
  destruct (nth_error l (Z.to_nat i)) as [x|] eqn:Hx.
  - rewrite (skipn_nth_error _ _ _ Hx).
    destruct (Z.to_nat (Z.min (i + w) n - i)) eqn:Hd; [lia|].
    simpl. discriminate.
  - apply nth_error_None in Hx. lia.
Qed.

Lemma py_min_in (l : list Z) : l <> [] -> exists m, py_min l = Some m /\ In m l.
Proof.
  induction l as [|x l IH]; intros Hne; [contradiction|].
  simpl. destruct l as [|y l].
  - exists x. split; [reflexivity|left; reflexivity].
  - destruct IH as (m & -> & Hin); [discriminate|].
    destruct (Z.ltb m x); eexists; (split; [reflexivity|]).
    + right. exact Hin.
    + left. reflexivity.
Qed.

Lemma py_list_index_in (l : list Z) (x : Z) :
  In x l -> exists p, py_list_index l x = Some p /\ (0 <= p)%Z.
Proof.
  induction l as [|y l IH]; intros Hin; [contradiction|].
  simpl. destruct (Z.eqb_spec y x) as [->|Hne].
  - exists 0%Z. split; [reflexivity|lia].
  - destruct Hin as [->|Hin]; [contradiction|].
    destruct (IH Hin) as (p & -> & Hp). exists (p + 1)%Z. split; [reflexivity|lia].
Qed.

Lemma winnow_step_total (hashes : list Z) (w : Z) (st : winnow_state) (i : Z) :
  (0 <= i < Z.of_nat (length hashes))%Z -> (0 < w)%Z -> recorded st ->
  exists st', winnow_step hashes w st i = Some st' /\ fps st' <> ∅.
Proof.
  intros Hi Hw Hrec. unfold winnow_step.
  destruct (py_min_in _ (py_slice_nonempty hashes i w Hi Hw)) as (m & -> & Hin).
  destruct (py_list_index_in _ _ Hin) as (p & -> & Hp).
  destruct (negb (i + p =? min_pos st)%Z || negb (bool_decide (Some m = min_hash st)))
    eqn:Hupd.
  - eexists. split; [reflexivity|]. simpl. set_solver.
  - exists st. split; [reflexivity|].
    apply orb_false_iff in Hupd as [Hpos _].
    apply negb_false_iff, Z.eqb_eq in Hpos.
    destruct Hrec as [Hneg|Hfps]; [lia|exact Hfps].
Qed.

Lemma winnow_loop_total (hashes : list Z) (w : Z) (starts : list Z) (st : winnow_state) :
  (forall i, In i starts -> (0 <= i < Z.of_nat (length hashes))%Z) -> (0 < w)%Z ->
  recorded st ->
  exists st', winnow_loop hashes w st starts = Some st'
              /\ (starts <> [] -> fps st' <> ∅).
Proof.
  intros Hin Hw. revert st. induction starts as [|i starts IH]; intros st Hrec.
  - exists st. split; [reflexivity|]. intros H. contradiction.
  - simpl.
    destruct (winnow_step_total hashes w st i (Hin i (or_introl eq_refl)) Hw Hrec)
      as (st1 & -> & Hne1).
    destruct (IH (fun j Hj => Hin j (or_intror Hj)) st1 (or_intror Hne1))
      as (st2 & Hloop & Hne2).
    exists st2. split; [exact Hloop|]. intros _.
    destruct starts as [|j starts'].
    + simpl in Hloop. congruence.
    + apply Hne2. discriminate.
Qed.

(** With a positive window the fingerprint function never raises, and a text
    of at least [k] tokens has a fingerprint. *)
Lemma winnow_fingerprints_total (text : string) (k w : Z) :
  (0 < w)%Z ->
  exists s, winnow_fingerprints text k w = Some s
            /\ ((k <= Z.of_nat (length (_tokens text)))%Z -> s <> ∅).
Proof.
  intros Hw. unfold winnow_fingerprints.
  set (toks := _tokens text). set (t := Z.of_nat (length toks)).
  destruct (Z.ltb_spec t k) as [Hlt|Hge].
  - exists ∅. split; [reflexivity|]. lia.
  - unfold t at 1. rewrite (all_hashes_text toks k Hge). fold t.
    set (hashes := map (shingle_hash toks k) (zrange 0 (t - k + 1))).
    assert (Z.of_nat (length hashes) = t - k + 1)%Z as Hlen
      by (unfold hashes; rewrite length_map, length_zrange; lia).
    destruct (Z.leb_spec (Z.of_nat (length hashes)) w) as [Hsmall|Hbig].
    + eexists. split; [reflexivity|]. intros _.
      destruct hashes as [|h hs]; [simpl in Hlen; lia|].
      simpl. set_solver.
    + destruct (winnow_loop_total hashes w
                  (zrange 0 (Z.of_nat (length hashes) - w + 1))
                  {| fps := ∅; min_hash := None; min_pos := (-1)%Z |})
        as (st & -> & Hne).
      * intros i Hi. apply in_zrange in Hi. lia.
      * exact Hw.
      * left. simpl. lia.
      * exists (fps st). split; [reflexivity|]. intros _. apply Hne.
        intros Hnil. apply (f_equal (@length Z)) in Hnil.
        rewrite length_zrange in Hnil. simpl in Hnil. lia.
Qed.

Lemma py_slice_In {A : Type} (l : list A) (i j : Z) (x : A) :
  In x (py_slice l i j) -> In x l.
Proof.
  unfold py_slice. intros Hin%list_elem_of_In. apply list_elem_of_In.
  eapply subseteq_drop, subseteq_take. exact Hin.
Qed.

Lemma py_min_In (l : list Z) (m : Z) : py_min l = Some m -> In m l.
Proof.
  destruct l as [|x l]; [discriminate|].
  destruct (py_min_in (x :: l)) as (m' & Hm' & Hin); [discriminate|].
  intros Hm. rewrite Hm in Hm'. injection Hm' as <-. exact Hin.
Qed.

Lemma winnow_step_within (hashes : list Z) (w : Z) (st st' : winnow_state) (i : Z) :
  winnow_step hashes w st i = Some st' ->
  fps st ⊆ list_to_set hashes -> fps st' ⊆ list_to_set hashes.
Proof.
  unfold winnow_step. intros Hstep Hsub.
  destruct (py_min (py_slice hashes i (i + w))) as [m|] eqn:Hmin; [|discriminate].
  destruct (py_list_index (py_slice hashes i (i + w)) m) as [p|]; [|discriminate].
  destruct (negb (i + p =? min_pos st)%Z || negb (bool_decide (Some m = min_hash st)));
    injection Hstep as <-; [|exact Hsub].
  simpl. apply py_min_In, py_slice_In, list_elem_of_In in Hmin.
  apply union_subseteq. split; [|exact Hsub].
  apply singleton_subseteq_l, elem_of_list_to_set. exact Hmin.
Qed.

Lemma winnow_loop_within (hashes : list Z) (w : Z) (starts : list Z) :
  forall st st', winnow_loop hashes w st starts = Some st' ->
    fps st ⊆ list_to_set hashes -> fps st' ⊆ list_to_set hashes.
Proof.
  induction starts as [|i starts IH]; intros st st' Hloop Hsub.
  - injection Hloop as <-. exact Hsub.
  - simpl in Hloop. destruct (winnow_step hashes w st i) as [st1|] eqn:Hstep; [|discriminate].
    apply (IH st1 st' Hloop). exact (winnow_step_within _ _ _ _ _ Hstep Hsub).
Qed.

Lemma size_list_to_set_le (l : list Z) : (size (list_to_set l : gset Z) <= length l)%nat.
Proof.
  induction l as [|x l IH]; [rewrite list_to_set_nil, size_empty; lia|].
  rewrite list_to_set_cons, size_union_alt, size_singleton. simpl.
  assert (size (list_to_set l ∖ {[x]} : gset Z) <= size (list_to_set l : gset Z))%nat
    by (apply subseteq_size; set_solver).
  lia.
Qed.

(** There are no more fingerprints than tokens. *)
Lemma winnow_fingerprints_size (text : string) (k w : Z) (s : gset Z) :
  (0 < k)%Z -> winnow_fingerprints text k w = Some s ->
  (size s <= length (_tokens text))%nat.
Proof.
  intros Hk. unfold winnow_fingerprints.
  set (toks := _tokens text). set (t := Z.of_nat (length toks)).
  destruct (Z.ltb_spec t k) as [Hlt|Hge].
  - intros [= <-]. rewrite size_empty. lia.
  - unfold t at 1. rewrite (all_hashes_text toks k Hge). fold t.
    set (hashes := map (shingle_hash toks k) (zrange 0 (t - k + 1))).
    assert (length hashes <= length toks)%nat as Hlen
      by (unfold hashes; rewrite length_map, length_zrange; lia).
    pose proof (size_list_to_set_le hashes) as Hsz.
    destruct (Z.leb_spec (Z.of_nat (length hashes)) w) as [Hsmall|Hbig].
    + intros [= <-]. lia.
    + destruct (winnow_loop hashes w _ _) as [st|] eqn:Hloop; [|discriminate].
      intros [= <-].
      apply winnow_loop_within in Hloop; [|simpl; set_solver].
      apply subseteq_size in Hloop. lia.
Qed.

End Winnowing.

(** ** Blank texts have no tokens *)

Section BlankTexts.
Import Py Similarity FormatterSpec SimilaritySpec.

Lemma rstrip_by_empty (p : ascii -> bool) (s : string) :
  rstrip_by p s = "" -> all_chars p s = true.
Proof.
  induction s as [|c s IH]; [reflexivity|]. simpl.
  destruct (rstrip_by p s); [|discriminate].
  destruct (p c); [intros _; apply IH; reflexivity|discriminate].
Qed.

Lemma lstrip_by_all (p : ascii -> bool) (s : string) :
  all_chars p (lstrip_by p s) = true -> all_chars p s = true.
Proof.
  induction s as [|c s IH]; [reflexivity|]. simpl.
  destruct (p c) eqn:Hc; [exact IH|]. simpl. rewrite Hc. discriminate.
Qed.

Lemma strip_empty_all_space (s : string) : strip s = "" -> all_chars isspace s = true.
Proof. intros H. apply lstrip_by_all, rstrip_by_empty. exact H. Qed.

Lemma space_not_token (c : ascii) :
  isspace c = true -> is_token_char (lower_char c) = false.
Proof.
  destruct c as [[] [] [] [] [] [] [] []]; vm_compute; congruence.
Qed.

Lemma lower_tokenless (s : string) : all_chars isspace s = true -> tokenless (lower s) = true.
Proof.
  induction s as [|c s IH]; [reflexivity|]. simpl.
  intros [Hc Hs]%andb_true_iff. unfold tokenless in *. simpl.
  rewrite (space_not_token c Hc). simpl. apply IH. exact Hs.
Qed.

Lemma replace_crlf_tokenless (s : string) :
  tokenless s = true -> tokenless (replace_crlf s) = true.
Proof.
  unfold tokenless.
  assert (forall n s, (String.length s <= n)%nat ->
            all_chars (fun c => negb (is_token_char c)) s = true ->
            all_chars (fun c => negb (is_token_char c)) (replace_crlf s) = true) as H.
  { clear s. induction n as [|n IH]; intros [|c s] Hlen Hs; try reflexivity.
    - simpl in Hlen. lia.
    - simpl in Hlen. simpl in Hs. apply andb_true_iff in Hs as [Hc Hs].
      simpl. destruct s as [|c' s'].
      + simpl. rewrite Hc. reflexivity.
      + destruct (Ascii.eqb c CR && Ascii.eqb c' LF).
        * simpl in Hs. apply andb_true_iff in Hs as [_ Hs'].
          simpl. apply IH; [simpl in Hlen; lia|exact Hs'].
        * simpl. rewrite Hc. simpl. apply (IH (String c' s')); [lia|exact Hs]. }
  apply (H (String.length s)). lia.
Qed.

Lemma collapse_blanks_tokenless (b : bool) (s : string) :
  tokenless s = true -> tokenless (collapse_blanks b s) = true.
Proof.
  unfold tokenless. revert b. induction s as [|c s IH]; intros b; [reflexivity|].
  simpl. intros [Hc Hs]%andb_true_iff.
  destruct (is_blank c); [destruct b|]; simpl; rewrite ?Hc; simpl; apply IH; exact Hs.
Qed.

Lemma squeeze_newlines_tokenless (n : nat) (s : string) :
  tokenless s = true -> tokenless (squeeze_newlines n s) = true.
Proof.
  unfold tokenless. revert n. induction s as [|c s IH]; intros n; [reflexivity|].
  simpl. intros [Hc Hs]%andb_true_iff.
  destruct (Ascii.eqb c LF); [destruct (n <? 2)%nat|]; simpl; rewrite ?Hc; simpl;
    apply IH; exact Hs.
Qed.

Lemma lstrip_by_tokenless (p : ascii -> bool) (s : string) :
  tokenless s = true -> tokenless (lstrip_by p s) = true.
Proof.
  unfold tokenless. induction s as [|c s IH]; [reflexivity|].
  simpl. intros H. destruct (p c); [|exact H].
  apply andb_true_iff in H as [_ Hs]. apply IH. exact Hs.
Qed.

Lemma rstrip_by_tokenless (p : ascii -> bool) (s : string) :
  tokenless s = true -> tokenless (rstrip_by p s) = true.
Proof.
  unfold tokenless. induction s as [|c s IH]; [reflexivity|].
  simpl. intros [Hc Hs]%andb_true_iff. specialize (IH Hs).
  destruct (rstrip_by p s) as [|c' r].
  - destruct (p c); simpl; rewrite ?Hc; reflexivity.
  - simpl in *. rewrite Hc. exact IH.
Qed.

Lemma findall_tokenless (s : string) : tokenless s = true -> findall_alnum "" s = [].
Proof.
  unfold tokenless. induction s as [|c s IH]; [reflexivity|].
  simpl. intros [Hc Hs]%andb_true_iff.
  apply negb_true_iff in Hc. rewrite Hc. simpl. apply IH. exact Hs.
Qed.

Lemma blank_no_tokens (t : string) : blank t = true -> _tokens t = [].
Proof.
  intros Hb. unfold _tokens, normalize_whitespace. apply findall_tokenless.
  unfold strip. apply rstrip_by_tokenless, lstrip_by_tokenless.
  apply squeeze_newlines_tokenless, collapse_blanks_tokenless, replace_crlf_tokenless.
  apply lower_tokenless.
  unfold blank in Hb. apply orb_true_iff in Hb as [Hb|Hb].
  - destruct t; [reflexivity|discriminate].
  - apply strip_empty_all_space. destruct (strip t); [reflexivity|discriminate].
Qed.

End BlankTexts.

(** ** The similarity report *)

Section Report.
Import Py Similarity SimilaritySpec.

Lemma similarity_score_total (ta tb : string) :
  exists sc, similarity_score ta tb 5 4 = Some sc.
Proof.
  unfold similarity_score.
  destruct (winnow_fingerprints_total ta 5 4 eq_refl) as (fa & -> & _).
  destruct (winnow_fingerprints_total tb 5 4 eq_refl) as (fb & -> & _).
  eexists. reflexivity.
Qed.

Lemma similarity_score_self (t : string) :
  (5 <= length (_tokens t))%nat -> (Z.of_nat (length (_tokens t)) < 2 ^ 53)%Z ->
  similarity_score t t 5 4 = Some Double.one.
Proof.
  intros Hlen Hbig. unfold similarity_score.
  destruct (winnow_fingerprints_total t 5 4 eq_refl) as (f & Hf & Hne).
  rewrite Hf. f_equal. apply jaccard_self; [apply Hne; lia|].
  pose proof (winnow_fingerprints_size t 5 4 f eq_refl Hf). lia.
Qed.

Lemma in_push {A : Type} (l : list A) (x y : A) : In y (push l x) <-> In y l \/ y = x.
Proof.
  unfold push. rewrite in_app_iff. simpl. intuition congruence.
Qed.

Lemma report_row_spec (ga ta : string) (threshold : spec_float)
    (sources : dict string string) :
  forall results, exists results',
    report_row ga ta sources threshold results = Some results'
    /\ (forall r, In r results -> In r results')
    /\ (forall sb tb sc, In (sb, tb) sources -> blank tb = false ->
          similarity_score ta tb 5 4 = Some sc -> Double.ge sc threshold = true ->
          In {| name_a := ga; name_b := sb; score := sc |} results').
Proof.
  induction sources as [|[sb0 tb0] sources IH]; intros results.
  - exists results. split; [reflexivity|]. split; [auto|]. intros ? ? ? [].
  - simpl. destruct (blank tb0) eqn:Hb0.
    + destruct (IH results) as (res & Heq & Hkeep & Hnew).
      exists res. split; [exact Heq|]. split; [exact Hkeep|].
      intros sb tb sc [Hhd|Htl] Hb Hsc Hthr.
      * injection Hhd as <- <-. congruence.
      * eapply Hnew; eassumption.
    + destruct (similarity_score_total ta tb0) as (sc0 & Hsc0). rewrite Hsc0.
      destruct (IH (if Double.ge sc0 threshold
                    then push results {| name_a := ga; name_b := sb0; score := sc0 |}
                    else results)) as (res & Heq & Hkeep & Hnew).
      exists res. split; [exact Heq|]. split.
      * intros r Hr. apply Hkeep. destruct (Double.ge sc0 threshold); [|exact Hr].
        apply in_push. left. exact Hr.
      * intros sb tb sc [Hhd|Htl] Hb Hsc Hthr.
        -- injection Hhd as <- <-. rewrite Hsc0 in Hsc. injection Hsc as <-.
           apply Hkeep. rewrite Hthr. apply in_push. right. reflexivity.
        -- eapply Hnew; eassumption.
Qed.

Lemma report_rows_spec (threshold : spec_float) (sources generated : dict string string) :
  forall results, exists results',
    report_rows generated sources threshold results = Some results'
    /\ (forall r, In r results -> In r results')
    /\ (forall ga ta sb tb sc, In (ga, ta) generated -> blank ta = false ->
          In (sb, tb) sources -> blank tb = false ->
          similarity_score ta tb 5 4 = Some sc -> Double.ge sc threshold = true ->
          In {| name_a := ga; name_b := sb; score := sc |} results').
Proof.
  induction generated as [|[ga0 ta0] generated IH]; intros results.
  - exists results. split; [reflexivity|]. split; [auto|]. intros ? ? ? ? ? [].
  - simpl. destruct (blank ta0) eqn:Hb0.
    + destruct (IH results) as (res & Heq & Hkeep & Hnew).
      exists res. split; [exact Heq|]. split; [exact Hkeep|].
      intros ga ta sb tb sc [Hhd|Htl] Hba Hin Hbb Hsc Hthr.
      * injection Hhd as <- <-. congruence.
      * eapply Hnew; eassumption.
    + destruct (report_row_spec ga0 ta0 threshold sources results)
        as (row & -> & Hrow_keep & Hrow_new).
      destruct (IH row) as (res & Heq & Hkeep & Hnew).
      exists res. split; [exact Heq|]. split; [auto|].
      intros ga ta sb tb sc [Hhd|Htl] Hba Hin Hbb Hsc Hthr.
      * injection Hhd as <- <-. apply Hkeep. eapply Hrow_new; eassumption.
      * eapply Hnew; eassumption.
Qed.

Lemma in_insert_desc (x y : SimilarityResult) (l : list SimilarityResult) :
  In y (insert_desc x l) <-> y = x \/ In y l.
Proof.
  induction l as [|z l IH]; simpl.
  - intuition congruence.
  - destruct (Double.lt (score x) (score z)); simpl; [|intuition congruence].
    rewrite IH. intuition congruence.
Qed.

Lemma in_sort_desc (y : SimilarityResult) (l : list SimilarityResult) :
  In y (sort_desc l) <-> In y l.
Proof.
  induction l as [|x l IH]; simpl; [reflexivity|].
  rewrite in_insert_desc, IH. intuition congruence.
Qed.

(** C4, as the code has it. Two equal texts of at least five tokens (and of
    fewer than 2^53, as every text in memory) score 1.0, and the pair is in
    the report for every threshold up to 1.0; the report does not raise. *)
Theorem identical_texts_reported (generated sources : dict string string)
    (ga sb t : string) (threshold : spec_float) :
  In (ga, t) generated -> In (sb, t) sources ->
  (5 <= length (_tokens t))%nat -> (Z.of_nat (length (_tokens t)) < 2 ^ 53)%Z ->
  Double.ge Double.one threshold = true ->
  exists results,
    similarity_score t t 5 4 = Some Double.one
    /\ similarity_report generated sources threshold = Some results
    /\ In {| name_a := ga; name_b := sb; score := Double.one |} results.
Proof.
  intros Hg Hs Hlen Hbig Hthr.
  pose proof (similarity_score_self t Hlen Hbig) as Hsc.
  assert (blank t = false) as Hnb.
  { destruct (blank t) eqn:Hb; [|reflexivity].
    rewrite (blank_no_tokens t Hb) in Hlen. simpl in Hlen. lia. }
  unfold similarity_report.
  destruct (report_rows_spec threshold sources generated []) as (res & -> & _ & Hnew).
  exists (sort_desc res). split; [exact Hsc|].
  split; [reflexivity|]. apply in_sort_desc.
  exact (Hnew ga t sb t Double.one Hg Hnb Hs Hnb Hsc Hthr).
Qed.

Lemma identical_texts_reported_witness :
  exists results,
    similarity_score sample_text sample_text 5 4 = Some Double.one
    /\ similarity_report [("Results", sample_text)] [("protocol", sample_text)]
         threshold_012 = Some results
    /\ In {| name_a := "Results"; name_b := "protocol"; score := Double.one |} results.
Proof.
  apply (identical_texts_reported [("Results", sample_text)] [("protocol", sample_text)]
           "Results" "protocol" sample_text threshold_012).
  - left. reflexivity.
  - left. reflexivity.
  - apply Nat.leb_le. vm_compute. reflexivity.
  - apply Z.ltb_lt. vm_compute. reflexivity.
  - vm_compute. reflexivity.
Defined.

Lemma short_identical_texts_score :
  similarity_score "Robotic surgery." "Robotic surgery." 5 4 = Some Double.zero
  /\ similarity_report [("Results", "Robotic surgery.")] [("protocol", "Robotic surgery.")]
       threshold_012 = Some [].
Proof. split; vm_compute; reflexivity. Qed.

(** C4 as it is worded fails on a text of fewer than five tokens: its
    fingerprint set is empty, two empty sets score 0.0, and the pair is left
    out of the report although the text is not empty and the threshold, the
    default 0.12, is below 1.0. *)
Lemma identical_short_texts_not_reported :
  "Robotic surgery." <> "" /\ Double.ge Double.one threshold_012 = true
  /\ ~ (exists results,
          similarity_score "Robotic surgery." "Robotic surgery." 5 4 = Some Double.one
          /\ similarity_report [("Results", "Robotic surgery.")]
               [("protocol", "Robotic surgery.")] threshold_012 = Some results
          /\ In {| name_a := "Results"; name_b := "protocol"; score := Double.one |}
               results).
Proof.
  split; [discriminate|]. split; [vm_compute; reflexivity|].
  intros (results & Hsc & _).
  destruct short_identical_texts_score as [Hzero _].
  rewrite Hzero in Hsc. discriminate Hsc.
Qed.

End Report.

(** ** The reference formatter *)

Section Formatter.
Import Py Vancouver FormatterSpec.

Lemma all_chars_app (p : ascii -> bool) (s t : string) :
  all_chars p (s ++ t) = all_chars p s && all_chars p t.
Proof.
  induction s as [|c s IH]; [reflexivity|].
  rewrite sapp_cons. simpl. rewrite IH. apply andb_assoc.
Qed.

Lemma rstrip_by_split (p : ascii -> bool) (s : string) :
  exists d, s = rstrip_by p s ++ d /\ all_chars p d = true.
Proof.
  induction s as [|c s (d & Hs & Hd)]; [exists ""; split; reflexivity|].
  simpl. destruct (rstrip_by p s) as [|c' r] eqn:Hr.
  - rewrite sapp_nil_l in Hs. subst d. destruct (p c) eqn:Hc.
    + exists (String c s). split; [reflexivity|]. simpl. rewrite Hc. exact Hd.
    + exists s. split; [reflexivity|exact Hd].
  - exists d. split; [|exact Hd]. rewrite sapp_cons. f_equal. exact Hs.
Qed.

Lemma rstrip_by_snoc (p : ascii -> bool) (s : string) (c : ascii) :
  p c = false -> rstrip_by p (s ++ String c "") = s ++ String c "".
Proof.
  intros Hc. induction s as [|a s IH].
  - rewrite sapp_nil_l. simpl. rewrite Hc. reflexivity.
  - rewrite sapp_cons. simpl. rewrite IH.
    destruct s; reflexivity.
Qed.

Lemma lstrip_by_id (s : string) : no_leading_space s = true -> lstrip_by isspace s = s.
Proof.
  destruct s as [|c s]; [reflexivity|]. simpl.
  destruct (isspace c); [discriminate|reflexivity].
Qed.

Lemma collapse_ws_id (s : string) : no_double_space s = true -> collapse_ws false s = s.
Proof.
  induction s as [|c s IH]; [reflexivity|].
  simpl. intros [Hc Hs]%andb_true_iff. specialize (IH Hs).
  destruct (isspace c) eqn:Hsp.
  - destruct s as [|c' s']; [reflexivity|].
    simpl in Hc. destruct (isspace c'); [discriminate|]. rewrite IH. reflexivity.
  - rewrite IH. reflexivity.
Qed.

Lemma no_double_space_prefix (s d : string) :
  no_double_space (s ++ d) = true -> no_double_space s = true.
Proof.
  induction s as [|c s IH]; [reflexivity|].
  rewrite sapp_cons. simpl. intros [Hc Hs]%andb_true_iff.
  rewrite (IH Hs), andb_true_r.
  destruct s as [|c' s']; [reflexivity|]. exact Hc.
Qed.

Lemma no_double_space_snoc (s : string) (c : ascii) :
  isspace c = false -> no_double_space s = true ->
  no_double_space (s ++ String c "") = true.
Proof.
  intros Hc. induction s as [|a s IH]; [reflexivity|].
  rewrite sapp_cons. simpl. intros [Ha Hs]%andb_true_iff.
  rewrite (IH Hs), andb_true_r.
  destruct s as [|a' s'].
  - rewrite sapp_nil_l. rewrite Hc, andb_false_r. reflexivity.
  - exact Ha.
Qed.

Lemma strip_snoc_nonempty (s : string) (c : ascii) :
  isspace c = false -> strip (s ++ String c "") <> "".
Proof.
  intros Hc Hempty. apply strip_empty_all_space in Hempty.
  rewrite all_chars_app in Hempty. simpl in Hempty.
  rewrite Hc in Hempty. rewrite andb_false_r in Hempty. discriminate.
Qed.

(** What the formatter returns for a record that has only a title. *)
Lemma format_title_only_eq (t : string) :
  format_vancouver_reference (title_only t) =
    if truthy (rstrip_by is_dot t)
    then strip (collapse_ws false (rstrip_by is_dot t ++ "."))
    else "".
Proof.
  unfold format_vancouver_reference, reference_parts, after_authors. simpl.
  assert ((if truthy t then t else "") = t) as -> by (destruct t; reflexivity).
  destruct (truthy (rstrip_by is_dot t)); [|reflexivity].
  unfold push. simpl.
  destruct (String.eqb_spec (strip (rstrip_by is_dot t ++ ".")) "") as [He|_]; simpl.
  - exfalso. exact (strip_snoc_nonempty _ "."%char eq_refl He).
  - reflexivity.
Qed.

(** C5, as the code has it. The formatter is a total function. For a record
    that has only a title it returns nothing when the title consists of
    periods only, and else the title without its trailing periods, one period
    appended, with every run of several whitespace characters collapsed to a
    space and the ends trimmed; this is the title without its trailing
    periods plus one period when the title neither starts with whitespace nor
    has two whitespace characters in a row. *)
Theorem format_title_only (t : string) :
  (forall c : Citation, exists s, format_vancouver_reference c = s)
  /\ format_vancouver_reference (title_only t) =
       (if truthy (rstrip_by is_dot t)
        then strip (collapse_ws false (rstrip_by is_dot t ++ "."))
        else "")
  /\ (truthy (rstrip_by is_dot t) = true ->
      no_leading_space t = true -> no_double_space t = true ->
      format_vancouver_reference (title_only t) = rstrip_by is_dot t ++ ".").
Proof.
  split; [intros c; eexists; reflexivity|].
  split; [apply format_title_only_eq|].
  intros Hne Hlead Hdbl. rewrite format_title_only_eq, Hne.
  destruct (rstrip_by_split is_dot t) as (d & Ht & _).
  set (t' := rstrip_by is_dot t) in *.
  assert (no_double_space (t' ++ ".") = true) as Hdbl'.
  { apply no_double_space_snoc; [reflexivity|].
    apply (no_double_space_prefix t' d). rewrite <- Ht. exact Hdbl. }
  rewrite (collapse_ws_id _ Hdbl'). unfold strip.
  assert (no_leading_space (t' ++ ".") = true) as Hlead'.
  { destruct t' as [|c r]; [discriminate|].
    rewrite Ht in Hlead. exact Hlead. }
  rewrite (lstrip_by_id _ Hlead'). apply rstrip_by_snoc. reflexivity.
Qed.

Lemma format_title_only_witness :
  format_vancouver_reference (title_only "Total mesorectal excision: a review..") =
    "Total mesorectal excision: a review.".
Proof.
  destruct (format_title_only "Total mesorectal excision: a review..") as (_ & _ & H).
  apply H; reflexivity.
Defined.

(** C5 as it is worded fails on a title with two spaces in a row: the result
    is not the title with one period appended. *)
Lemma format_title_double_space :
  format_vancouver_reference (title_only "Robotic  surgery") = "Robotic surgery."
  /\ format_vancouver_reference (title_only "Robotic  surgery")
     <> rstrip_by is_dot "Robotic  surgery" ++ ".".
Proof. split; [reflexivity|]. vm_compute. discriminate. Qed.

End Formatter.

(** ** The author segment *)

Section Authors.
Import Py Vancouver FormatterSpec.

Lemma prefix_nil (s : string) : String.prefix "" s = true.
Proof. destruct s; reflexivity. Qed.

Lemma prefix_cons (a b : ascii) (p s : string) :
  String.prefix (String a p) (String b s) = true <-> a = b /\ String.prefix p s = true.
Proof.
  simpl. destruct (ascii_dec a b) as [->|Hne]; [tauto|].
  split; [discriminate|]. intros [? _]. contradiction.
Qed.

Lemma occurs_cons_false (c a : ascii) (p : string) :
  occurs c (String a p) = false -> c <> a /\ occurs c p = false.
Proof.
  simpl. intros [Hca Hp]%orb_false_iff. split; [|exact Hp].
  intros ->. rewrite Ascii.eqb_refl in Hca. discriminate.
Qed.

(** A pattern without the character [c] cannot be matched across [c]. *)
Lemma prefix_across (c : ascii) (p x y : string) :
  occurs c p = false -> String.prefix p (x ++ String c y) = true ->
  String.prefix p x = true.
Proof.
  revert x. induction p as [|a p IH]; intros x Hp Hpre; [apply prefix_nil|].
  apply occurs_cons_false in Hp as [Hca Hp].
  destruct x as [|b x].
  - rewrite sapp_nil_l in Hpre. apply prefix_cons in Hpre as [-> _]. contradiction.
  - rewrite sapp_cons in Hpre. apply prefix_cons in Hpre as [-> Hpre].
    apply prefix_cons. split; [reflexivity|]. apply IH; assumption.
Qed.

Lemma contains_across (c : ascii) (p x y : string) :
  occurs c p = false -> contains p (x ++ String c y) = true ->
  contains p x = true \/ contains p y = true.
Proof.
  intros Hp. induction x as [|b x IH].
  - rewrite sapp_nil_l. simpl. intros [Hpre|Hy]%orb_true_iff; [|right; exact Hy].
    left. destruct p as [|a p]; [reflexivity|].
    apply occurs_cons_false in Hp as [Hca _].
    apply prefix_cons in Hpre as [-> _]. contradiction.
  - rewrite sapp_cons.
    change (contains p (String b (x ++ String c y)))
      with (String.prefix p (String b (x ++ String c y)) || contains p (x ++ String c y)).
    intros [Hpre|Htl]%orb_true_iff.
    + left. change (contains p (String b x))
        with (String.prefix p (String b x) || contains p x).
      apply orb_true_iff. left.
      rewrite <- sapp_cons in Hpre. exact (prefix_across c p _ y Hp Hpre).
    + destruct (IH Htl) as [Hx|Hy]; [left|right; exact Hy].
      change (contains p (String b x))
        with (String.prefix p (String b x) || contains p x).
      rewrite Hx. apply orb_true_r.
Qed.

Lemma prefix_shorter (p q s : string) :
  String.prefix (p ++ q) s = true -> String.prefix p s = true.
Proof.
  revert s. induction p as [|a p IH]; intros s; [intros _; apply prefix_nil|].
  rewrite sapp_cons. destruct s as [|b s]; [discriminate|].
  intros [-> H]%prefix_cons. apply prefix_cons. split; [reflexivity|]. apply IH. exact H.
Qed.

Lemma contains_shorter (p q s : string) :
  contains (p ++ q) s = true -> contains p s = true.
Proof.
  induction s as [|b s IH].
  - cbn [contains]. rewrite !orb_false_r. apply prefix_shorter.
  - change (contains (p ++ q) (String b s))
      with (String.prefix (p ++ q) (String b s) || contains (p ++ q) s).
    change (contains p (String b s)) with (String.prefix p (String b s) || contains p s).
    intros [H|H]%orb_true_iff; apply orb_true_iff.
    + left. exact (prefix_shorter p q _ H).
    + right. exact (IH H).
Qed.

Lemma join_cons2 (sep x y : string) (l : list string) :
  join sep (x :: y :: l) = x ++ sep ++ join sep (y :: l).
Proof. reflexivity. Qed.

Lemma join_without_et_al (l : list string) :
  (forall a, In a l -> contains "et al" a = false) ->
  contains "et al" (join ", " l) = false.
Proof.
  induction l as [|x l IH]; intros Hall; [reflexivity|].
  destruct l as [|y l].
  - apply Hall. left. reflexivity.
  - rewrite join_cons2.
    destruct (contains "et al" (x ++ ", " ++ join ", " (y :: l))) eqn:Hc; [|reflexivity].
    exfalso.
    change (x ++ ", " ++ join ", " (y :: l))
      with (x ++ String ","%char (String " "%char (join ", " (y :: l)))) in Hc.
    apply (contains_across ","%char) in Hc as [Hx|Hy]; [| |reflexivity].
    + rewrite (Hall x (or_introl eq_refl)) in Hx. discriminate.
    + change (contains "et al" (String " "%char (join ", " (y :: l))))
        with (String.prefix "et al" (String " "%char (join ", " (y :: l)))
              || contains "et al" (join ", " (y :: l))) in Hy.
      rewrite IH in Hy; [discriminate|].
      intros a Ha. apply Hall. right. exact Ha.
Qed.

Lemma format_authors_few (authors : list string) :
  (1 <= length authors <= 6)%nat ->
  _format_authors authors = join ", " authors ++ ".".
Proof.
  intros [Hlo Hhi]. unfold _format_authors.
  destruct authors as [|a l]; [simpl in Hlo; lia|].
  destruct (Nat.leb_spec (length (a :: l)) 6); [reflexivity|lia].
Qed.

Lemma format_authors_many (authors : list string) :
  (6 < length authors)%nat ->
  _format_authors authors = join ", " (firstn 6 authors) ++ ", et al.".
Proof.
  intros Hlen. unfold _format_authors.
  destruct authors as [|a l]; [simpl in Hlen; lia|].
  destruct (Nat.leb_spec (length (a :: l)) 6); [lia|reflexivity].
Qed.

Lemma format_authors_truthy (authors : list string) :
  authors <> [] -> truthy (_format_authors authors) = true.
Proof.
  intros Hne. destruct authors as [|a l]; [contradiction|].
  unfold _format_authors. destruct (length (a :: l) <=? 6)%nat.
  - destruct (join ", " (a :: l)); reflexivity.
  - destruct (join ", " (firstn 6 (a :: l))); reflexivity.
Qed.

(** C6, as the code has it. Without authors there is no author segment among
    the parts of the reference; with one to six authors the segment is all
    names joined by a comma and a space, then a period, and it contains
    "et al." only if a name brings "et al" along; with more than six it is
    the first six names joined, then ", et al.". *)
Theorem format_authors_cases (l : list string) :
  (l = [] ->
     _format_authors l = ""
     /\ forall c, authors c = l -> reference_parts c = after_authors c [])
  /\ (l <> [] ->
     forall c, authors c = l ->
       reference_parts c = after_authors c [_format_authors l])
  /\ ((1 <= length l <= 6)%nat ->
     _format_authors l = join ", " l ++ "."
     /\ ((forall a, In a l -> contains "et al" a = false) ->
         contains "et al." (_format_authors l) = false))
  /\ ((6 < length l)%nat ->
     _format_authors l = join ", " (firstn 6 l) ++ ", et al.").
Proof.
  split; [|split; [|split]].
  - intros ->. split; [reflexivity|]. intros c Hc.
    unfold reference_parts. rewrite Hc. reflexivity.
  - intros Hne c Hc. unfold reference_parts. rewrite Hc.
    rewrite (format_authors_truthy l Hne). reflexivity.
  - intros Hlen. split; [apply format_authors_few; exact Hlen|].
    intros Hall. rewrite (format_authors_few l Hlen).
    destruct (contains "et al." (join ", " l ++ ".")) eqn:Hc; [|reflexivity].
    exfalso. apply (contains_shorter "et al" ".") in Hc.
    apply (contains_across "."%char) in Hc as [Hj|He]; [| |reflexivity].
    + rewrite (join_without_et_al l Hall) in Hj. discriminate.
    + discriminate.
  - apply format_authors_many.
Qed.

Lemma format_authors_cases_witness :
  _format_authors ["Kim NK"; "Lee JH"; "Park S"; "Cho MS"; "Min BS"; "Baik SH"]
    = "Kim NK, Lee JH, Park S, Cho MS, Min BS, Baik SH."
  /\ contains "et al."
       (_format_authors ["Kim NK"; "Lee JH"; "Park S"; "Cho MS"; "Min BS"; "Baik SH"])
     = false
  /\ _format_authors ["Kim NK"; "Lee JH"; "Park S"; "Cho MS"; "Min BS"; "Baik SH"; "Hur H"]
    = "Kim NK, Lee JH, Park S, Cho MS, Min BS, Baik SH, et al."
  /\ reference_parts (title_only "A trial") = after_authors (title_only "A trial") [].
Proof.
  destruct (format_authors_cases
              ["Kim NK"; "Lee JH"; "Park S"; "Cho MS"; "Min BS"; "Baik SH"])
    as (_ & _ & Hfew & _).
  destruct Hfew as [Heq Hno]; [simpl; lia|].
  destruct (format_authors_cases
              ["Kim NK"; "Lee JH"; "Park S"; "Cho MS"; "Min BS"; "Baik SH"; "Hur H"])
    as (_ & _ & _ & Hmany).
  destruct (format_authors_cases []) as ((_ & Hnone) & _); [reflexivity|].
  split; [exact Heq|]. split; [|split; [apply Hmany; simpl; lia|apply Hnone; reflexivity]].
  apply Hno. intros a Ha. simpl in Ha.
  repeat (destruct Ha as [<-|Ha]; [reflexivity|]). contradiction.
Defined.

(** C6 as it is worded fails when a name brings the words along: two authors,
    and the segment contains "et al.". *)
Lemma few_authors_with_et_al :
  (length ["Smith J"; "et al"] <= 6)%nat
  /\ _format_authors ["Smith J"; "et al"] = join ", " ["Smith J"; "et al"] ++ "."
  /\ contains "et al." (_format_authors ["Smith J"; "et al"]) = true.
Proof. split; [simpl; lia|]. split; reflexivity. Qed.

End Authors.

(** ** The placeholder scanner *)

Section Scanner.
Import Py Vancouver FormatterSpec ScannerSpec.

Lemma occurs_app (c : ascii) (s t : string) :
  occurs c (s ++ t) = occurs c s || occurs c t.
Proof.
  induction s as [|a s IH]; [reflexivity|].
  rewrite sapp_cons. simpl. rewrite IH. apply orb_assoc.
Qed.

Lemma strip_prefix_app (p r : string) : strip_prefix p (p ++ r) = Some r.
Proof.
  induction p as [|a p IH]; [reflexivity|].
  rewrite sapp_cons. simpl. rewrite Ascii.eqb_refl. exact IH.
Qed.

Lemma strip_prefix_inv (p s r : string) : strip_prefix p s = Some r -> s = p ++ r.
Proof.
  revert s. induction p as [|a p IH]; intros s; simpl.
  - intros [= ->]. reflexivity.
  - destruct s as [|b s]; [discriminate|].
    destruct (Ascii.eqb_spec a b) as [->|_]; [|discriminate].
    intros H. rewrite sapp_cons. f_equal. apply IH. exact H.
Qed.

Lemma span_ident_app (i r : string) :
  occurs rbrace i = false -> span_ident (i ++ String rbrace r) = (i, String rbrace r).
Proof.
  induction i as [|c i IH]; intros Hi.
  - reflexivity.
  - apply occurs_cons_false in Hi as [Hc Hi]. rewrite sapp_cons. simpl.
    destruct (Ascii.eqb_spec c rbrace) as [->|_]; [contradiction|].
    rewrite (IH Hi). reflexivity.
Qed.

Lemma span_ident_inv (s i r : string) :
  span_ident s = (i, r) -> s = i ++ r /\ occurs rbrace i = false.
Proof.
  revert i r. induction s as [|c s IH]; intros i r; simpl.
  - intros [= <- <-]. split; reflexivity.
  - destruct (Ascii.eqb_spec c rbrace) as [->|Hc].
    + intros [= <- <-]. split; reflexivity.
    + destruct (span_ident s) as [i' r'] eqn:Hs. intros [= <- <-].
      destruct (IH i' r' eq_refl) as [-> Hi']. split; [reflexivity|].
      cbn [occurs]. rewrite Hi', orb_false_r.
      destruct (Ascii.eqb_spec rbrace c) as [<-|_]; [contradiction|reflexivity].
Qed.

Lemma match_tail_inv (k0 k : kind) (s i r : string) :
  match_tail k0 s = Some (k, i, r) ->
  k = k0 /\ s = kind_token k ++ ":" ++ i ++ String rbrace r
  /\ i <> "" /\ occurs rbrace i = false.
Proof.
  unfold match_tail.
  destruct (strip_prefix (kind_token k0 ++ ":") s) as [s2|] eqn:Hpre; [|discriminate].
  apply strip_prefix_inv in Hpre.
  destruct (span_ident s2) as [i' r'] eqn:Hspan.
  apply span_ident_inv in Hspan as [-> Hi'].
  destruct i' as [|c i']; [discriminate|]. destruct r' as [|b r']; [discriminate|].
  destruct (Ascii.eqb_spec b rbrace) as [->|_]; [|discriminate].
  intros [= <- <- <-]. split; [reflexivity|]. split; [|split; [discriminate|exact Hi']].
  rewrite Hpre, sapp_assoc. reflexivity.
Qed.

Lemma match_tail_tag (k : kind) (i r : string) :
  i <> "" -> occurs rbrace i = false ->
  match_tail k (kind_token k ++ ":" ++ i ++ String rbrace r) = Some (k, i, r).
Proof.
  intros Hne Hi. unfold match_tail.
  rewrite <- sapp_assoc, strip_prefix_app, (span_ident_app i r Hi).
  destruct i as [|c i]; [contradiction|]. rewrite Ascii.eqb_refl. reflexivity.
Qed.

(** The scanner matches at the head of a text exactly when the text starts
    with a tag of a supported kind whose identifier is not empty and runs up
    to the first closing brace. *)
Lemma match_cite_iff (s : string) (k : kind) (i r : string) :
  match_cite s = Some (k, i, r) <->
  s = "{cite:" ++ kind_token k ++ ":" ++ i ++ String rbrace r
  /\ i <> "" /\ occurs rbrace i = false.
Proof.
  unfold match_cite. split.
  - destruct (strip_prefix "{cite:" s) as [s1|] eqn:Hpre; [|discriminate].
    apply strip_prefix_inv in Hpre. subst s.
    destruct (match_tail PMID s1) as [[[k1 i1] r1]|] eqn:H1.
    + intros [= -> -> ->]. apply match_tail_inv in H1 as (_ & -> & Hne & Hi).
      auto.
    + intros H2. apply match_tail_inv in H2 as (_ & -> & Hne & Hi). auto.
  - intros (-> & Hne & Hi). rewrite strip_prefix_app.
    destruct k.
    + rewrite (match_tail_tag PMID i r Hne Hi). reflexivity.
    + rewrite (match_tail_tag DOI i r Hne Hi). reflexivity.
Qed.

Lemma match_cite_shorter (s : string) (k : kind) (i r : string) :
  match_cite s = Some (k, i, r) -> (String.length r < String.length s)%nat.
Proof.
  intros (-> & _ & _)%match_cite_iff.
  rewrite !slength_app. simpl. lia.
Qed.

Lemma scan_steps_enough (n m : nat) (s : string) :
  (String.length s < n)%nat -> (String.length s < m)%nat ->
  scan_steps n s = scan_steps m s.
Proof.
  revert m s. induction n as [|n IH]; intros m s Hn Hm; [lia|].
  destruct m as [|m]; [lia|]. simpl.
  destruct (match_cite s) as [[[k i] r]|] eqn:Hm0.
  - apply match_cite_shorter in Hm0. f_equal. apply IH; lia.
  - destruct s as [|c s']; [reflexivity|]. simpl in Hn, Hm. f_equal. apply IH; lia.
Qed.

(** The equation of the scan, free of the step counter. *)
Lemma scan_eq (s : string) :
  scan s =
    match match_cite s with
    | Some (k, ident, rest) => Cite k ident :: scan rest
    | None =>
        match s with
        | EmptyString => []
        | String c s' => Lit c :: scan s'
        end
    end.
Proof.
  unfold scan at 1. simpl.
  destruct (match_cite s) as [[[k i] r]|] eqn:Hm0.
  - f_equal. apply scan_steps_enough; [|lia].
    apply match_cite_shorter in Hm0. lia.
  - destruct s as [|c s']; [reflexivity|]. f_equal.
Qed.

Lemma scan_match (s : string) (k : kind) (i r : string) :
  match_cite s = Some (k, i, r) -> scan s = Cite k i :: scan r.
Proof. intros H. rewrite scan_eq, H. reflexivity. Qed.

Lemma scan_skip (c : ascii) (s : string) :
  match_cite (String c s) = None -> scan (String c s) = Lit c :: scan s.
Proof. intros H. rewrite scan_eq, H. reflexivity. Qed.

Lemma scan_nil : scan "" = [].
Proof. reflexivity. Qed.

End Scanner.

(** ** Malformed placeholders *)

Section Malformed.
Import Py Vancouver FormatterSpec ScannerSpec.

Lemma lits_app (s t : string) : lits (s ++ t) = (lits s ++ lits t)%list.
Proof.
  induction s as [|c s IH]; [reflexivity|].
  rewrite sapp_cons. simpl. rewrite IH. reflexivity.
Qed.

Lemma match_cite_needs_rbrace (s : string) :
  occurs rbrace s = false -> match_cite s = None.
Proof.
  intros Hs. destruct (match_cite s) as [[[k i] r]|] eqn:Hm; [|reflexivity].
  apply match_cite_iff in Hm as (-> & _ & _).
  rewrite !occurs_app in Hs. cbn [occurs] in Hs.
  rewrite Ascii.eqb_refl in Hs. rewrite !orb_true_r in Hs. discriminate.
Qed.

Lemma match_cite_needs_lbrace (c : ascii) (s : string) :
  c <> lbrace -> match_cite (String c s) = None.
Proof.
  intros Hc. unfold match_cite. cbn [strip_prefix].
  destruct (Ascii.eqb_spec "{"%char c) as [<-|_]; [contradiction|reflexivity].
Qed.

(** Text without a closing brace holds no match. *)
Lemma scan_no_rbrace (s : string) : occurs rbrace s = false -> scan s = lits s.
Proof.
  induction s as [|c s IH]; intros Hs; [reflexivity|].
  rewrite (scan_skip c s (match_cite_needs_rbrace _ Hs)).
  apply occurs_cons_false in Hs as [_ Hs]. rewrite (IH Hs). reflexivity.
Qed.

(** Text without an opening brace is copied, and the scan goes on behind it. *)
Lemma scan_no_lbrace (s rest : string) :
  occurs lbrace s = false -> scan (s ++ rest) = (lits s ++ scan rest)%list.
Proof.
  induction s as [|c s IH]; intros Hs; [reflexivity|].
  apply occurs_cons_false in Hs as [Hc Hs]. rewrite sapp_cons.
  rewrite scan_skip by (apply match_cite_needs_lbrace; congruence).
  rewrite (IH Hs). reflexivity.
Qed.

Lemma match_cite_app (s x : string) (k : kind) (i r : string) :
  match_cite s = Some (k, i, r) -> match_cite (s ++ x) = Some (k, i, r ++ x).
Proof.
  intros (-> & Hne & Hi)%match_cite_iff. apply match_cite_iff.
  split; [|split; assumption].
  rewrite !sapp_assoc. rewrite sapp_cons. reflexivity.
Qed.

(** Where a closing brace of [pre ++ rest] lies when [rest] has none. *)
Lemma split_before_tail (x r pre tail : string) :
  x ++ String rbrace r = pre ++ tail -> occurs rbrace tail = false ->
  exists r', pre = x ++ String rbrace r' /\ r = r' ++ tail.
Proof.
  revert pre. induction x as [|a x IH]; intros pre Heq Htail.
  - rewrite sapp_nil_l in Heq. destruct pre as [|b pre].
    + rewrite sapp_nil_l in Heq. subst tail. cbn [occurs] in Htail.
      rewrite Ascii.eqb_refl in Htail. discriminate.
    + rewrite sapp_cons in Heq. injection Heq as <- ->. exists pre. split; reflexivity.
  - rewrite sapp_cons in Heq. destruct pre as [|b pre].
    + rewrite sapp_nil_l in Heq. subst tail.
      cbn [occurs] in Htail. rewrite occurs_app in Htail. cbn [occurs] in Htail.
      rewrite Ascii.eqb_refl in Htail. rewrite !orb_true_r in Htail. discriminate.
    + rewrite sapp_cons in Heq. injection Heq as <- Heq.
      destruct (IH pre Heq Htail) as (r' & -> & ->). exists r'. split; reflexivity.
Qed.

(** Where the first closing brace of [pre ++ rest] lies when [pre] has one. *)
Lemma split_first_rbrace (x r pre rest : string) :
  x ++ String rbrace r = pre ++ rest ->
  occurs rbrace x = false -> occurs rbrace pre = true ->
  exists r', pre = x ++ String rbrace r' /\ r = r' ++ rest.
Proof.
  revert pre. induction x as [|a x IH]; intros pre Heq Hx Hpre.
  - rewrite sapp_nil_l in Heq. destruct pre as [|b pre]; [discriminate|].
    rewrite sapp_cons in Heq. injection Heq as <- ->. exists pre. split; reflexivity.
  - rewrite sapp_cons in Heq. destruct pre as [|b pre]; [discriminate|].
    rewrite sapp_cons in Heq. injection Heq as <- Heq.
    apply occurs_cons_false in Hx as [Ha Hx].
    cbn [occurs] in Hpre.
    destruct (Ascii.eqb_spec rbrace a) as [Hra|_]; [contradiction|].
    destruct (IH pre Heq Hx Hpre) as (r' & -> & ->). exists r'. split; reflexivity.
Qed.

Lemma opener_no_rbrace (k : kind) (i : string) :
  occurs rbrace i = false -> occurs rbrace ("{cite:" ++ kind_token k ++ ":" ++ i) = false.
Proof.
  intros Hi. rewrite !occurs_app, Hi. destruct k; reflexivity.
Qed.

Lemma match_cite_none_tail (pre tail : string) :
  match_cite pre = None -> occurs rbrace tail = false -> match_cite (pre ++ tail) = None.
Proof.
  intros Hnone Htail.
  destruct (match_cite (pre ++ tail)) as [[[k i] r]|] eqn:Hm; [|reflexivity].
  apply match_cite_iff in Hm as (Heq & Hne & Hi).
  rewrite <- !sapp_assoc in Heq. symmetry in Heq.
  destruct (split_before_tail _ _ _ _ Heq Htail) as (r' & Hpre & _).
  assert (match_cite pre = Some (k, i, r')) as Hsome.
  { apply match_cite_iff. split; [|split; assumption].
    rewrite Hpre, !sapp_assoc. reflexivity. }
  congruence.
Qed.

Lemma match_cite_none_closed (pre rest : string) :
  match_cite pre = None -> occurs rbrace pre = true -> match_cite (pre ++ rest) = None.
Proof.
  intros Hnone Hpre.
  destruct (match_cite (pre ++ rest)) as [[[k i] r]|] eqn:Hm; [|reflexivity].
  apply match_cite_iff in Hm as (Heq & Hne & Hi).
  rewrite <- !sapp_assoc in Heq. symmetry in Heq.
  pose proof (opener_no_rbrace k i Hi) as Hx.
  rewrite <- !sapp_assoc in Hx.
  destruct (split_first_rbrace _ _ _ _ Heq Hx Hpre) as (r' & Hpre' & _).
  assert (match_cite pre = Some (k, i, r')) as Hsome.
  { apply match_cite_iff. split; [|split; assumption].
    rewrite Hpre', !sapp_assoc. reflexivity. }
  congruence.
Qed.

(** A tail without a closing brace is copied as it is, whatever precedes. *)
Lemma scan_unterminated (pre tail : string) :
  occurs rbrace tail = false -> scan (pre ++ tail) = (scan pre ++ lits tail)%list.
Proof.
  intros Htail.
  assert (forall n pre, (String.length pre <= n)%nat ->
            scan (pre ++ tail) = (scan pre ++ lits tail)%list) as H.
  { clear pre. induction n as [|n IH]; intros pre Hlen.
    - destruct pre; [|simpl in Hlen; lia].
      rewrite sapp_nil_l. apply scan_no_rbrace. exact Htail.
    - destruct (match_cite pre) as [[[k i] r]|] eqn:Hm.
      + rewrite (scan_match _ _ _ _ (match_cite_app pre tail k i r Hm)).
        rewrite (scan_match _ _ _ _ Hm).
        apply match_cite_shorter in Hm. rewrite IH by lia. reflexivity.
      + destruct pre as [|c pre].
        * rewrite sapp_nil_l. apply scan_no_rbrace. exact Htail.
        * pose proof (match_cite_none_tail _ tail Hm Htail) as Hm'.
          rewrite sapp_cons in Hm' |- *.
          rewrite (scan_skip _ _ Hm'), (scan_skip _ _ Hm).
          simpl in Hlen. rewrite IH by lia. reflexivity. }
  apply (H (String.length pre)). lia.
Qed.

Lemma closed_suffix (x r : string) : closed (x ++ r) = true -> closed r = true.
Proof.
  induction x as [|a x IH]; [auto|].
  rewrite sapp_cons. cbn [closed]. intros [_ H]%andb_true_iff. apply IH. exact H.
Qed.

Lemma closed_head (c : ascii) (s : string) :
  closed (String c s) = true -> c = lbrace -> occurs rbrace (String c s) = true.
Proof.
  cbn [closed occurs]. intros [H _]%andb_true_iff ->.
  rewrite Ascii.eqb_refl in H. rewrite H. apply orb_true_r.
Qed.

(** Behind a text that leaves no tag open the scan starts afresh. *)
Lemma scan_closed (pre rest : string) :
  closed pre = true -> scan (pre ++ rest) = (scan pre ++ scan rest)%list.
Proof.
  assert (forall n pre, (String.length pre <= n)%nat -> closed pre = true ->
            scan (pre ++ rest) = (scan pre ++ scan rest)%list) as H.
  { clear pre. induction n as [|n IH]; intros pre Hlen Hcl.
    - destruct pre; [reflexivity|simpl in Hlen; lia].
    - destruct (match_cite pre) as [[[k i] r]|] eqn:Hm.
      + rewrite (scan_match _ _ _ _ (match_cite_app pre rest k i r Hm)).
        rewrite (scan_match _ _ _ _ Hm).
        pose proof (match_cite_shorter _ _ _ _ Hm) as Hshort.
        apply match_cite_iff in Hm as (Hpre & _ & _).
        rewrite Hpre in Hcl.
        change (String rbrace r) with (String rbrace "" ++ r) in Hcl.
        rewrite <- !sapp_assoc in Hcl. apply closed_suffix in Hcl.
        rewrite IH by (assumption || lia). reflexivity.
      + destruct pre as [|c pre]; [reflexivity|].
        assert (match_cite (String c pre ++ rest) = None) as Hm'.
        { destruct (Ascii.eqb_spec c lbrace) as [Hc|Hc].
          - apply match_cite_none_closed; [exact Hm|].
            apply closed_head; assumption.
          - rewrite sapp_cons. apply match_cite_needs_lbrace. exact Hc. }
        rewrite sapp_cons in Hm' |- *.
        rewrite (scan_skip _ _ Hm'), (scan_skip _ _ Hm).
        simpl in Hlen. cbn [closed] in Hcl. apply andb_true_iff in Hcl as [_ Hcl].
        rewrite IH by (assumption || lia). reflexivity. }
  intros Hcl. apply (H (String.length pre)); [lia|exact Hcl].
Qed.

End Malformed.

Section MalformedRenumbering.
Import Py Vancouver FormatterSpec ScannerSpec.

Lemma sub_segments_app (fmt : string) (s1 s2 : list segment) (d : dict string nat) (n : nat) :
  sub_segments fmt (s1 ++ s2)%list d n =
    let '(o1, d1, n1) := sub_segments fmt s1 d n in
    let '(o2, d2, n2) := sub_segments fmt s2 d1 n1 in
    (o1 ++ o2, d2, n2).
Proof.
  revert d n. induction s1 as [|[c|k i] s1 IH]; intros d n.
  - simpl. destruct (sub_segments fmt s2 d n) as [[o2 d2] n2]. reflexivity.
  - simpl. rewrite IH.
    destruct (sub_segments fmt s1 d n) as [[o1 d1] n1].
    destruct (sub_segments fmt s2 d1 n1) as [[o2 d2] n2]. reflexivity.
  - simpl. destruct (repl fmt d n k i) as [[m d0] n0]. rewrite IH.
    destruct (sub_segments fmt s1 d0 n0) as [[o1 d1] n1].
    destruct (sub_segments fmt s2 d1 n1) as [[o2 d2] n2].
    rewrite sapp_assoc. reflexivity.
Qed.

Lemma sub_segments_lits (fmt s : string) (d : dict string nat) (n : nat) :
  sub_segments fmt (lits s) d n = (s, d, n).
Proof.
  induction s as [|c s IH]; [reflexivity|]. simpl. rewrite IH. reflexivity.
Qed.

Lemma colon_split (a b x y : string) :
  a ++ String ":"%char x = b ++ String ":"%char y ->
  occurs ":"%char a = false -> occurs ":"%char b = false -> a = b.
Proof.
  revert b. induction a as [|c a IH]; intros [|e b] Heq Ha Hb.
  - reflexivity.
  - rewrite sapp_nil_l, sapp_cons in Heq. injection Heq as <- _.
    cbn [occurs] in Hb. rewrite Ascii.eqb_refl in Hb. discriminate.
  - rewrite sapp_nil_l, sapp_cons in Heq. injection Heq as -> _.
    cbn [occurs] in Ha. rewrite Ascii.eqb_refl in Ha. discriminate.
  - rewrite !sapp_cons in Heq. injection Heq as <- Heq.
    apply occurs_cons_false in Ha as [_ Ha]. apply occurs_cons_false in Hb as [_ Hb].
    f_equal. exact (IH b Heq Ha Hb).
Qed.

(** The scanner does not match at a tag whose kind token is neither PMID nor
    DOI. *)
Lemma match_cite_unknown_kind (K ident post : string) :
  K <> "PMID" -> K <> "DOI" -> occurs ":"%char K = false ->
  match_cite (tag K ident ++ post) = None.
Proof.
  intros Hp Hd Hcolon.
  destruct (match_cite (tag K ident ++ post)) as [[[k i] r]|] eqn:Hm; [|reflexivity].
  apply match_cite_iff in Hm as (Heq & _ & _). unfold tag in Heq.
  rewrite !sapp_assoc in Heq. apply String.app_inj in Heq.
  apply colon_split in Heq; [|exact Hcolon|destruct k; reflexivity].
  destruct k; simpl in Heq; contradiction.
Qed.

Lemma scan_unknown_kind (K ident post : string) :
  K <> "PMID" -> K <> "DOI" -> occurs ":"%char K = false ->
  occurs lbrace K = false -> occurs lbrace ident = false ->
  scan (tag K ident ++ post) = (lits (tag K ident) ++ scan post)%list.
Proof.
  intros Hp Hd Hcolon HK Hident.
  pose proof (match_cite_unknown_kind K ident post Hp Hd Hcolon) as Hm.
  change (tag K ident) with (String lbrace ("cite:" ++ K ++ ":" ++ ident ++ "}")) in *.
  rewrite sapp_cons in Hm |- *. rewrite (scan_skip _ _ Hm). cbn [lits app].
  rewrite scan_no_lbrace; [reflexivity|].
  rewrite !occurs_app, HK, Hident. reflexivity.
Qed.

(** C9, as the code has it. A tail of the text without a closing brace, such
    as an unterminated tag, is copied as it is and consumes no number. A tag
    whose kind token is neither PMID nor DOI is copied as it is and consumes
    no number when no tag before it is left open and its own text holds no
    further opening brace; the numbering goes on behind it. *)
Theorem malformed_placeholders_kept (fmt : string) (d : dict string nat) (n : nat) :
  (forall pre tail : string,
     occurs rbrace tail = false ->
     re_number_citations (pre ++ tail) d n fmt =
       let '(out, d', n') := re_number_citations pre d n fmt in
       (out ++ tail, d', n'))
  /\ (forall pre K ident post : string,
        K <> "PMID" -> K <> "DOI" -> occurs ":"%char K = false ->
        occurs lbrace K = false -> occurs lbrace ident = false ->
        closed pre = true ->
        re_number_citations (pre ++ tag K ident ++ post) d n fmt =
          let '(o1, d1, n1) := re_number_citations pre d n fmt in
          let '(o2, d2, n2) := re_number_citations post d1 n1 fmt in
          (o1 ++ tag K ident ++ o2, d2, n2)).
Proof.
  unfold re_number_citations. split.
  - intros pre tail Htail. rewrite (scan_unterminated pre tail Htail), sub_segments_app.
    destruct (sub_segments fmt (scan pre) d n) as [[o1 d1] n1]. cbv beta iota.
    rewrite sub_segments_lits. reflexivity.
  - intros pre K ident post Hp Hd Hcolon HK Hident Hcl.
    rewrite (scan_closed pre _ Hcl).
    rewrite (scan_unknown_kind K ident post Hp Hd Hcolon HK Hident).
    rewrite sub_segments_app.
    destruct (sub_segments fmt (scan pre) d n) as [[o1 d1] n1]. cbv beta iota.
    rewrite sub_segments_app, sub_segments_lits.
    destruct (sub_segments fmt (scan post) d1 n1) as [[o2 d2] n2]. reflexivity.
Qed.

Lemma malformed_placeholders_kept_witness :
  re_number_citations ("See {cite:PMID:1} and " ++ "{cite:PMID:2") [] 1 "bracket" =
    ("See [1] and {cite:PMID:2", [("PMID:1", 1%nat)], 2%nat)
  /\ re_number_citations
       ("As in {cite:PMID:1}, " ++ tag "ISBN" "9" ++ " and {cite:DOI:10.1/x}.") [] 1 "bracket"
     = ("As in [1], {cite:ISBN:9} and [2].",
        [("PMID:1", 1%nat); ("DOI:10.1/x", 2%nat)], 3%nat).
Proof.
  destruct (malformed_placeholders_kept "bracket" [] 1) as [Htail Hkind].
  split.
  - apply (Htail "See {cite:PMID:1} and " "{cite:PMID:2"). reflexivity.
  - apply (Hkind "As in {cite:PMID:1}, " "ISBN" "9" " and {cite:DOI:10.1/x}.");
      try reflexivity; discriminate.
Defined.

(** C9 as it is worded fails when a tag before the malformed one is left
    open: the identifier of the open tag runs up to the closing brace of the
    malformed one, the whole stretch is replaced and a number is consumed. *)
Lemma malformed_placeholder_swallowed :
  "see {cite:PMID:12 and {cite:ISBN:9}." = "see {cite:PMID:12 and " ++ tag "ISBN" "9" ++ "."
  /\ re_number_citations "see {cite:PMID:12 and {cite:ISBN:9}." [] 1 "bracket" =
       ("see [1].", [("PMID:12 and {cite:ISBN:9", 1%nat)], 2%nat)
  /\ contains (tag "ISBN" "9") "see [1]." = false.
Proof. split; [reflexivity|]. split; reflexivity. Qed.

End MalformedRenumbering.

(** ** Numbering in order of first appearance *)

Section Numbering.
Import Py Vancouver FormatterSpec ScannerSpec NumberingSpec.

Lemma dict_get_app {K V : Type} `{EqDecision K} (d e : dict K V) (k : K) :
  dict_get (d ++ e)%list k =
    match dict_get d k with Some v => Some v | None => dict_get e k end.
Proof.
  induction d as [|[k' v'] d IH]; [reflexivity|].
  simpl. destruct (decide (k' = k)); [reflexivity|exact IH].
Qed.

Lemma dict_set_fresh {K V : Type} `{EqDecision K} (d : dict K V) (k : K) (v : V) :
  dict_get d k = None -> dict_set d k v = (d ++ [(k, v)])%list.
Proof.
  induction d as [|[k' v'] d IH]; [reflexivity|].
  simpl. destruct (decide (k' = k)); [discriminate|].
  intros H. rewrite (IH H). reflexivity.
Qed.

Lemma dict_get_set {K V : Type} `{EqDecision K} (d : dict K V) (k k' : K) (v : V) :
  dict_get (dict_set d k v) k' = if decide (k = k') then Some v else dict_get d k'.
Proof.
  induction d as [|[k0 v0] d IH]; simpl.
  - destruct (decide (k = k')); reflexivity.
  - destruct (decide (k0 = k)) as [->|Hne]; simpl.
    + destruct (decide (k = k')); reflexivity.
    + destruct (decide (k0 = k')) as [->|Hne'].
      * destruct (decide (k = k')); [congruence|reflexivity].
      * exact IH.
Qed.

Lemma kind_token_no_colon (k : kind) : occurs ":"%char (kind_token k) = false.
Proof. destruct k; reflexivity. Qed.

(** Distinct identities have distinct keys. *)
Lemma key_of_inj (id1 id2 : identity) : key_of id1 = key_of id2 -> id1 = id2.
Proof.
  destruct id1 as [k1 s1], id2 as [k2 s2]. unfold key_of. simpl. intros Heq.
  pose proof (colon_split _ _ _ _ Heq (kind_token_no_colon k1) (kind_token_no_colon k2))
    as Hk.
  assert (k1 = k2) as -> by (destruct k1, k2; simpl in Hk; congruence).
  do 2 apply String.app_inj in Heq. subst s2. reflexivity.
Qed.

Lemma key_as_key_of (k : kind) (ident : string) :
  _key (kind_token k) ident = key_of (identity_of k ident).
Proof. reflexivity. Qed.

Lemma mem_In (x : identity) (l : list identity) : mem x l = true <-> In x l.
Proof.
  induction l as [|y l IH]; simpl; [split; [discriminate|tauto]|].
  rewrite orb_true_iff, bool_decide_eq_true, IH. reflexivity.
Qed.

Lemma mem_not_In (x : identity) (l : list identity) : mem x l = false <-> ~ In x l.
Proof.
  rewrite <- mem_In. destruct (mem x l); split; congruence.
Qed.

Lemma combine_append {A B : Type} (l1 l2 : list A) (k1 k2 : list B) :
  length l1 = length k1 ->
  combine (l1 ++ l2)%list (k1 ++ k2)%list = (combine l1 k1 ++ combine l2 k2)%list.
Proof.
  revert k1. induction l1 as [|x l1 IH]; intros [|y k1] Hlen; try discriminate.
  - reflexivity.
  - simpl. f_equal. apply IH. simpl in Hlen. lia.
Qed.

Lemma numbering_app (ids more : list identity) :
  numbering (ids ++ more)%list =
    (numbering ids ++
     combine (map key_of more) (seq (S (length ids)) (length more)))%list.
Proof.
  unfold numbering. rewrite map_app, length_app, seq_app.
  rewrite combine_append by (rewrite length_map, length_seq; reflexivity).
  reflexivity.
Qed.

Lemma numbering_snoc (ids : list identity) (id : identity) :
  numbering (ids ++ [id])%list = (numbering ids ++ [(key_of id, S (length ids))])%list.
Proof. rewrite numbering_app. reflexivity. Qed.

Lemma length_numbering (ids : list identity) : length (numbering ids) = length ids.
Proof.
  unfold numbering. rewrite length_combine, length_map, length_seq. lia.
Qed.


Lemma numbering_keys (ids : list identity) :
  map fst (numbering ids) = map key_of ids.
Proof.
  unfold numbering. generalize 1%nat as a.
  induction ids as [|id ids IH]; intros a; [reflexivity|].
  simpl. f_equal. apply IH.
Qed.

Lemma combine_get_absent (ids : list identity) (nums : list nat) (id : identity) :
  ~ In id ids -> dict_get (combine (map key_of ids) nums) (key_of id) = None.
Proof.
  revert nums. induction ids as [|id0 ids IH]; intros nums Hnot; [reflexivity|].
  destruct nums as [|a nums]; [reflexivity|]. simpl.
  destruct (decide (key_of id0 = key_of id)) as [Heq|_].
  - exfalso. apply Hnot. left. exact (key_of_inj _ _ Heq).
  - apply IH. intros Hin. apply Hnot. right. exact Hin.
Qed.

(** The i-th identity of a duplicate-free list is bound to the number i,
    counted from the start of the range. *)
Lemma combine_get_nth (ids : list identity) (a i : nat) (id : identity) :
  NoDup ids -> nth_error ids i = Some id ->
  dict_get (combine (map key_of ids) (seq a (length ids))) (key_of id) = Some (a + i)%nat.
Proof.
  revert a i. induction ids as [|id0 ids IH]; intros a i Hnd Hnth.
  - destruct i; discriminate.
  - apply NoDup_cons in Hnd as [Hnot Hnd]. simpl.
    destruct i as [|i]; simpl in Hnth.
    + injection Hnth as ->. rewrite decide_True by reflexivity. f_equal. lia.
    + destruct (decide (key_of id0 = key_of id)) as [Heq|_].
      * exfalso. apply key_of_inj in Heq. subst id0. apply Hnot.
        apply list_elem_of_In. eapply nth_error_In. exact Hnth.
      * rewrite (IH (S a) i Hnd Hnth). f_equal. lia.
Qed.

Lemma numbering_get_nth (ids : list identity) (i : nat) (id : identity) :
  NoDup ids -> nth_error ids i = Some id ->
  dict_get (numbering ids) (key_of id) = Some (S i).
Proof. intros Hnd Hnth. unfold numbering. rewrite (combine_get_nth ids 1 i id Hnd Hnth). reflexivity. Qed.

Lemma numbering_get_absent (ids : list identity) (id : identity) :
  ~ In id ids -> dict_get (numbering ids) (key_of id) = None.
Proof. apply combine_get_absent. Qed.

(** A binding survives when later identities are numbered. *)
Lemma numbering_get_mono (ids more : list identity) (key : string) (num : nat) :
  dict_get (numbering ids) key = Some num ->
  dict_get (numbering (ids ++ more)%list) key = Some num.
Proof. intros H. rewrite numbering_app, dict_get_app, H. reflexivity. Qed.

Lemma render_mono (fmt : string) (ids more : list identity) (segs : list segment)
    (out : string) :
  render fmt (numbering ids) segs = Some out ->
  render fmt (numbering (ids ++ more)%list) segs = Some out.
Proof.
  revert out. induction segs as [|[c|k i] segs IH]; intros out; simpl.
  - auto.
  - destruct (render fmt (numbering ids) segs) as [o|]; [|discriminate].
    rewrite (IH o eq_refl). auto.
  - destruct (dict_get (numbering ids) (key_of (identity_of k i))) as [num|] eqn:Hget;
      [|discriminate].
    destruct (render fmt (numbering ids) segs) as [o|]; [|discriminate].
    rewrite (numbering_get_mono ids more _ _ Hget), (IH o eq_refl). auto.
Qed.

Lemma first_new_app (seen l1 l2 : list identity) :
  first_new seen (l1 ++ l2)%list =
    (first_new seen l1 ++ first_new (seen ++ first_new seen l1) l2)%list.
Proof.
  revert seen. induction l1 as [|x l1 IH]; intros seen.
  - simpl. rewrite app_nil_r. reflexivity.
  - simpl. destruct (mem x seen); [apply IH|].
    rewrite IH. simpl. rewrite <- app_assoc. reflexivity.
Qed.

Lemma first_new_NoDup (seen l : list identity) :
  NoDup seen -> NoDup (seen ++ first_new seen l)%list.
Proof.
  revert seen. induction l as [|x l IH]; intros seen Hnd.
  - simpl. rewrite app_nil_r. exact Hnd.
  - simpl. destruct (mem x seen) eqn:Hmem; [apply IH; exact Hnd|].
    change (x :: first_new (seen ++ [x]) l)%list
      with ([x] ++ first_new (seen ++ [x]) l)%list.
    rewrite app_assoc. apply IH.
    apply NoDup_app. split; [exact Hnd|]. split.
    + intros y Hy ->%list_elem_of_singleton.
      apply mem_not_In in Hmem. apply Hmem. apply list_elem_of_In. exact Hy.
    + apply NoDup_singleton.
Qed.


End Numbering.

Section NumberingPass.
Import Py Vancouver FormatterSpec ScannerSpec NumberingSpec.

(** One substitution pass, started with the identities [ids] numbered in
    order: it ends with the first appearances of the text numbered behind
    them, and its output is the text rendered with the final numbering. *)
Lemma sub_segments_numbering (fmt : string) (segs : list segment) :
  forall ids : list identity, NoDup ids ->
    exists out,
      sub_segments fmt segs (numbering ids) (S (length ids)) =
        (out, numbering (ids ++ first_new ids (occurrences segs))%list,
         S (length (ids ++ first_new ids (occurrences segs))%list))
      /\ render fmt (numbering (ids ++ first_new ids (occurrences segs))%list) segs
         = Some out.
Proof.
  induction segs as [|[c|k i] segs IH]; intros ids Hnd.
  - exists "". simpl. rewrite app_nil_r. split; reflexivity.
  - destruct (IH ids Hnd) as (out & Hsub & Hren).
    exists (String c out). simpl. rewrite Hsub, Hren. split; reflexivity.
  - cbn [sub_segments occurrences first_new render]. unfold repl.
    rewrite key_as_key_of. set (id := identity_of k i).
    destruct (mem id ids) eqn:Hmem.
    + apply mem_In in Hmem. apply (In_nth_error ids id) in Hmem as [j Hj].
      pose proof (numbering_get_nth ids j id Hnd Hj) as Hget. rewrite Hget.
      destruct (IH ids Hnd) as (out & Hsub & Hren).
      exists (marker fmt (S j) ++ out). rewrite Hsub. split; [reflexivity|].
      rewrite (numbering_get_mono ids _ _ _ Hget), Hren. reflexivity.
    + apply mem_not_In in Hmem.
      pose proof (numbering_get_absent ids id Hmem) as Hget. rewrite Hget.
      rewrite (dict_set_fresh _ _ _ Hget), <- numbering_snoc.
      assert (NoDup (ids ++ [id])%list) as Hnd'.
      { apply NoDup_app. split; [exact Hnd|]. split; [|apply NoDup_singleton].
        intros y Hy ->%list_elem_of_singleton. apply Hmem, list_elem_of_In. exact Hy. }
      destruct (IH (ids ++ [id])%list Hnd') as (out & Hsub & Hren).
      replace (S (S (length ids))) with (S (length (ids ++ [id])%list))
        by (rewrite length_app; simpl; lia).
      rewrite Hsub.
      replace (ids ++ id :: first_new (ids ++ [id]) (occurrences segs))%list
        with ((ids ++ [id]) ++ first_new (ids ++ [id]) (occurrences segs))%list
        by (rewrite <- app_assoc; reflexivity).
      exists (marker fmt (S (length ids)) ++ out). split; [reflexivity|].
      rewrite Hren.
      assert (dict_get (numbering (ids ++ [id])%list) (key_of id) = Some (S (length ids)))
        as Hnew.
      { rewrite numbering_snoc, dict_get_app, Hget. simpl.
        rewrite decide_True by reflexivity. reflexivity. }
      rewrite (numbering_get_mono _ _ _ _ Hnew). reflexivity.
Qed.

Lemma rewritten_mono (fmt : string) (ids more : list identity)
    (secs new : list (string * string)) :
  Forall2 (rewritten fmt (numbering ids)) secs new ->
  Forall2 (rewritten fmt (numbering (ids ++ more)%list)) secs new.
Proof.
  induction 1 as [|st nt secs new [Hname Hren] _ IH]; constructor; [|exact IH].
  split; [exact Hname|]. apply render_mono. exact Hren.
Qed.

Lemma processed_in_cons (drafts : dict string string) (sec : string) (order : list string) :
  processed_in drafts (sec :: order) =
    (match dict_get drafts sec with
     | Some t => if blank t then [] else [(sec, strip t)]
     | None => []
     end ++ processed_in drafts order)%list.
Proof. reflexivity. Qed.

Lemma number_section_skip (fmt : string) (drafts : dict string string)
    (st : dict string nat * nat * dict string string) (sec : string) :
  match dict_get drafts sec with Some t => blank t = true | None => True end ->
  number_section fmt drafts st sec = st.
Proof.
  destruct st as [[d n] numbered]. unfold number_section.
  destruct (dict_get drafts sec) as [t|]; [|reflexivity].
  intros ->. reflexivity.
Qed.

Lemma number_section_text (fmt : string) (drafts : dict string string)
    (d : dict string nat) (n : nat) (numbered : dict string string) (sec t : string) :
  dict_get drafts sec = Some t -> blank t = false ->
  number_section fmt drafts (d, n, numbered) sec =
    let '(out, d', n') := re_number_citations (strip t) d n fmt in
    (d', n', dict_set numbered sec out).
Proof. intros Hget Hblank. unfold number_section. rewrite Hget, Hblank. reflexivity. Qed.

(** The loop over the section order. *)
Lemma number_sections_spec (fmt : string) (drafts : dict string string)
    (order : list string) :
  NoDup order ->
  forall (ids : list identity) (numbered : dict string string),
    NoDup ids ->
    (forall sec, In sec order -> dict_get numbered sec = None) ->
    let ids' :=
      (ids ++ first_new ids
                (flat_map (fun st => citations_in (snd st))
                   (processed_in drafts order)))%list in
    exists new,
      fold_left (number_section fmt drafts) order
        (numbering ids, S (length ids), numbered)
      = (numbering ids', S (length ids'), (numbered ++ new)%list)
      /\ Forall2 (rewritten fmt (numbering ids')) (processed_in drafts order) new.
Proof.
  induction order as [|sec order IH]; intros Hord ids numbered Hnd Hfree ids'.
  - exists []. unfold ids'. simpl. rewrite !app_nil_r. split; [reflexivity|constructor].
  - apply NoDup_cons in Hord as [Hsec Hord].
    assert (forall s, In s order -> dict_get numbered s = None) as Hfree'
      by (intros s Hs; apply Hfree; right; exact Hs).
    cbn [fold_left].
    destruct (dict_get drafts sec) as [t|] eqn:Hget;
      [destruct (blank t) eqn:Hblank|].
    + rewrite number_section_skip by (rewrite Hget; exact Hblank).
      unfold ids'. rewrite processed_in_cons, Hget, Hblank, app_nil_l.
      apply IH; assumption.
    + rewrite (number_section_text _ _ _ _ _ _ _ Hget Hblank).
      unfold re_number_citations.
      destruct (sub_segments_numbering fmt (scan (strip t)) ids Hnd) as (out & Hsub & Hren).
      rewrite Hsub.
      rewrite (dict_set_fresh numbered sec out (Hfree sec (or_introl eq_refl))).
      set (ids1 := (ids ++ first_new ids (occurrences (scan (strip t))))%list) in *.
      assert (NoDup ids1) as Hnd1 by (apply first_new_NoDup; exact Hnd).
      destruct (IH Hord ids1 (numbered ++ [(sec, out)])%list Hnd1) as (new & Hfold & Hall).
      { intros s Hs. rewrite dict_get_app, (Hfree' s Hs). simpl.
        destruct (decide (sec = s)) as [->|_]; [|reflexivity].
        exfalso. apply Hsec, list_elem_of_In. exact Hs. }
      assert (ids' = (ids1 ++ first_new ids1
                        (flat_map (fun st => citations_in (snd st))
                           (processed_in drafts order)))%list) as Hids.
      { unfold ids'. rewrite processed_in_cons, Hget, Hblank.
        cbn [app flat_map snd]. unfold citations_in at 1.
        rewrite first_new_app, app_assoc. reflexivity. }
      clearbody ids'. subst ids'.
      rewrite processed_in_cons, Hget, Hblank. cbn [app].
      exists ((sec, out) :: new). rewrite Hfold, <- app_assoc. split; [reflexivity|].
      constructor; [|exact Hall].
      split; [reflexivity|]. apply render_mono. exact Hren.
    + rewrite number_section_skip by (rewrite Hget; exact I).
      unfold ids'. rewrite processed_in_cons, Hget, app_nil_l.
      apply IH; assumption.
Qed.

Lemma build_order_NoDup (drafts : dict string string) (b : bool) :
  NoDup (build_order drafts b).
Proof.
  unfold build_order.
  destruct (b && dict_mem drafts "Abstract");
    apply (bool_decide_unpack _); vm_compute; exact I.
Qed.

(** The value of the numbering loop of the driver. *)
Lemma number_all_value (journal : JournalSpec) (drafts : dict string string) (b : bool) :
  exists numbered,
    number_all journal drafts b
      = (numbering (cited_once drafts b), S (length (cited_once drafts b)), numbered)
    /\ Forall2 (rewritten (in_text_format (references journal))
                  (numbering (cited_once drafts b)))
         (processed drafts b) numbered.
Proof.
  destruct (number_sections_spec (in_text_format (references journal)) drafts
              (build_order drafts b) (build_order_NoDup _ _) [] []
              (@NoDup_nil_2 identity) (fun _ _ => eq_refl))
    as (new & Hfold & Hall).
  exists new. split; [exact Hfold|exact Hall].
Qed.

Lemma cited_once_NoDup (drafts : dict string string) (b : bool) :
  NoDup (cited_once drafts b).
Proof. apply (first_new_NoDup [] _ (@NoDup_nil_2 identity)). Qed.






End NumberingPass.

(** ** The reference list *)

Section ReferenceList.
Import Py Vancouver FormatterSpec ScannerSpec NumberingSpec.

Lemma index_citation_get (d : dict string Citation) (cu : CitationUse) (key : string) :
  (forall c, dict_get (index_citation d cu) key = Some c ->
     (c = citation cu /\ key_answers c key) \/ dict_get d key = Some c)
  /\ (dict_get (index_citation d cu) key = None ->
      dict_get d key = None /\ ~ key_answers (citation cu) key).
Proof.
  unfold index_citation, key_answers.
  set (c0 := citation cu).
  destruct (pmid c0) as [p|] eqn:Hp; destruct (doi c0) as [q|] eqn:Hq;
    try destruct (truthy p) eqn:Htp; try destruct (truthy q) eqn:Htq;
    rewrite ?dict_get_set;
    repeat match goal with
      | |- context [decide (?a = ?b)] => destruct (decide (a = b))
      end;
    (split; [intros c Hc|intros Hnone]);
    try discriminate;
    try (injection Hc as <-);
    try (left; split; [reflexivity|]; solve [left; eauto | right; eauto]);
    try (right; assumption);
    try (split; [assumption|];
         intros [(p' & Hp' & Htp' & Hk')|(q' & Hq' & Htq' & Hk')]; congruence).
Qed.

Lemma pool_index_some (sel : list CitationUse) :
  forall (d : dict string Citation) (key : string) (c : Citation),
    dict_get (fold_left index_citation sel d) key = Some c ->
    (In c (map citation sel) /\ key_answers c key) \/ dict_get d key = Some c.
Proof.
  induction sel as [|cu sel IH]; intros d key c Hget; [right; exact Hget|].
  simpl in Hget. destruct (IH _ _ _ Hget) as [[Hin Hans]|Hd].
  - left. split; [right; exact Hin|exact Hans].
  - destruct (proj1 (index_citation_get d cu key) c Hd) as [[-> Hans]|Hd'].
    + left. split; [left; reflexivity|exact Hans].
    + right. exact Hd'.
Qed.

Lemma pool_index_keeps (sel : list CitationUse) :
  forall (d : dict string Citation) (key : string),
    dict_get (fold_left index_citation sel d) key = None -> dict_get d key = None.
Proof.
  induction sel as [|cu sel IH]; intros d key Hnone; [exact Hnone|].
  simpl in Hnone. apply IH in Hnone.
  exact (proj1 (proj2 (index_citation_get d cu key) Hnone)).
Qed.

Lemma pool_index_none (sel : list CitationUse) :
  forall (d : dict string Citation) (key : string),
    dict_get (fold_left index_citation sel d) key = None ->
    forall c, In c (map citation sel) -> ~ key_answers c key.
Proof.
  induction sel as [|cu sel IH]; intros d key Hget c Hin; [contradiction|].
  simpl in Hget, Hin. destruct Hin as [<-|Hin].
  - apply pool_index_keeps in Hget.
    exact (proj2 (proj2 (index_citation_get d cu key) Hget)).
  - exact (IH _ _ Hget c Hin).
Qed.

Lemma truthy_nonempty (p : string) : truthy p = true <-> p <> "".
Proof. destruct p; simpl; split; congruence. Qed.

Lemma key_answers_identity (c : Citation) (id : identity) :
  key_answers c (key_of id) <-> answers c id.
Proof.
  destruct id as [k s]. unfold key_answers, answers. cbn [fst snd].
  split.
  - intros [(p & Hp & Ht & Hk)|(p & Hp & Ht & Hk)].
    + change (_key "PMID" p) with (key_of (PMID, strip p)) in Hk.
      apply key_of_inj in Hk. injection Hk as <- <-.
      exists p. rewrite <- truthy_nonempty. auto.
    + change (_key "DOI" p) with (key_of (DOI, strip p)) in Hk.
      apply key_of_inj in Hk. injection Hk as <- <-.
      exists p. rewrite <- truthy_nonempty. auto.
  - destruct k; intros (p & Hp & Hne & <-); [left|right];
      exists p; rewrite truthy_nonempty; auto.
Qed.

Lemma collect_map_Some {A : Type} (l : list A) : collect (map Some l) = Some l.
Proof. induction l as [|x l IH]; [reflexivity|]. simpl. rewrite IH. reflexivity. Qed.

Lemma combine_seq_get (keys : list string) (a i : nat) (k : string) :
  nth_error keys i = Some k ->
  dict_get (combine (seq a (length keys)) keys) (a + i)%nat = Some k.
Proof.
  revert a i. induction keys as [|k0 keys IH]; intros a i Hnth.
  - destruct i; discriminate.
  - simpl. destruct i as [|i]; simpl in Hnth.
    + injection Hnth as ->. rewrite decide_True by lia. reflexivity.
    + rewrite decide_False by lia.
      replace (a + S i)%nat with (S a + i)%nat by lia. apply IH. exact Hnth.
Qed.

Lemma combine_seq_absent (keys : list string) (a num : nat) :
  (num < a)%nat -> dict_get (combine (seq a (length keys)) keys) num = None.
Proof.
  revert a. induction keys as [|k0 keys IH]; intros a Hlt; [reflexivity|].
  simpl. rewrite decide_False by lia. apply IH. lia.
Qed.

(** [num_to_key]: the numbering turned round. *)
Lemma invert_numbering (ids : list identity) :
  fold_left (fun (d : dict nat string) kn => dict_set d (snd kn) (fst kn))
    (numbering ids) []
  = combine (seq 1 (length ids)) (map key_of ids).
Proof.
  unfold numbering.
  assert (forall keys a (acc : dict nat string),
            (forall num, (a <= num)%nat -> dict_get acc num = None) ->
            fold_left (fun (d : dict nat string) kn => dict_set d (snd kn) (fst kn))
              (combine keys (seq a (length keys))) acc
            = (acc ++ combine (seq a (length keys)) keys)%list) as H.
  { induction keys as [|k keys IH]; intros a acc Hacc.
    - simpl. rewrite app_nil_r. reflexivity.
    - simpl. rewrite (dict_set_fresh acc a k (Hacc a (le_n a))).
      rewrite IH.
      + rewrite <- app_assoc. reflexivity.
      + intros num Hnum. rewrite dict_get_app, Hacc by lia. simpl.
        rewrite decide_False by lia. reflexivity. }
  rewrite <- (length_map key_of ids). rewrite H; [reflexivity|].
  intros num _. reflexivity.
Qed.

Lemma insert_sorted_below (a : nat) (n : nat) :
  insert_sorted a (seq (S a) n) = a :: seq (S a) n.
Proof.
  destruct n as [|n]; [reflexivity|]. simpl.
  destruct (Nat.leb_spec a (S a)); [reflexivity|lia].
Qed.

Lemma sorted_seq (a n : nat) : sorted (seq a n) = seq a n.
Proof.
  revert a. induction n as [|n IH]; intros a; [reflexivity|].
  unfold sorted in *. simpl. rewrite IH. apply insert_sorted_below.
Qed.

Lemma dict_keys_combine {A B : Type} (l : list A) (k : list B) :
  length l = length k -> dict_keys (combine l k) = l.
Proof.
  unfold dict_keys. revert k. induction l as [|x l IH]; intros [|y k] Hlen;
    try discriminate; [reflexivity|].
  simpl. f_equal. apply IH. simpl in Hlen. lia.
Qed.

Lemma reference_entries (key_to_citation : dict string Citation)
    (num_to_key : dict nat string) (ids : list identity) :
  forall a : nat,
    (forall i id, nth_error ids i = Some id ->
       dict_get num_to_key (a + i)%nat = Some (key_of id)) ->
    map (reference_entry num_to_key key_to_citation) (seq a (length ids))
    = map Some (map (fun p => entry_for key_to_citation (fst p) (snd p))
                  (combine (seq a (length ids)) ids)).
Proof.
  induction ids as [|id ids IH]; intros a Hget; [reflexivity|].
  simpl. f_equal.
  - unfold reference_entry, entry_for.
    pose proof (Hget 0%nat id eq_refl) as H0. rewrite Nat.add_0_r in H0. rewrite H0.
    destruct (dict_get key_to_citation (key_of id)); reflexivity.
  - apply IH. intros i id' Hi. replace (S a + i)%nat with (a + S i)%nat by lia.
    apply Hget. exact Hi.
Qed.

Lemma nth_error_combine_seq {A : Type} (l : list A) (a i : nat) (x : A) :
  nth_error l i = Some x ->
  nth_error (combine (seq a (length l)) l) i = Some ((a + i)%nat, x).
Proof.
  revert a i. induction l as [|y l IH]; intros a i Hnth.
  - destruct i; discriminate.
  - destruct i as [|i]; simpl in *.
    + injection Hnth as ->. rewrite Nat.add_0_r. reflexivity.
    + rewrite (IH (S a) i Hnth). do 2 f_equal. lia.
Qed.

(** The value of the driver: the numbered sections, and one entry for each
    number in ascending order. *)
Lemma number_drafts_value (journal : JournalSpec) (drafts : dict string string)
    (plan : CitationPlan) (b : bool) :
  let ids := cited_once drafts b in
  let key_to_citation := fold_left index_citation (selected plan) [] in
  exists numbered,
    number_drafts_and_build_references journal drafts plan b =
      Some (numbered,
            map (fun p => entry_for key_to_citation (fst p) (snd p))
              (combine (seq 1 (length ids)) ids)).
Proof.
  intros ids ktc.
  destruct (number_all_value journal drafts b) as (numbered & Hall & _).
  fold ids in Hall.
  exists numbered. unfold number_drafts_and_build_references. rewrite Hall.
  fold ktc. rewrite invert_numbering.
  rewrite dict_keys_combine by (rewrite length_seq, length_map; reflexivity).
  rewrite sorted_seq.
  rewrite (reference_entries ktc _ ids 1).
  - rewrite collect_map_Some. reflexivity.
  - intros i id Hi. rewrite <- (length_map key_of ids).
    apply combine_seq_get. rewrite nth_error_map, Hi. reflexivity.
Qed.

(** C3. The driver does not raise. The reference list has one entry for each
    assigned number, in ascending order: the entry at position i is for the
    number i + 1 and the identity bound to it. When a record of the pool
    answers for the identity, the entry is the number, a period and the
    formatted reference of such a record; when none does, it is the number, a
    period, the key of the identity and the note on missing metadata. *)
Theorem reference_list_complete (journal : JournalSpec) (drafts : dict string string)
    (plan : CitationPlan) (include_abstract_citations : bool) :
  let ids := cited_once drafts include_abstract_citations in
  exists numbered refs,
    number_drafts_and_build_references journal drafts plan include_abstract_citations
      = Some (numbered, refs)
    /\ length refs = length ids
    /\ forall i id, nth_error ids i = Some id ->
         dict_get (numbering ids) (key_of id) = Some (S i)
         /\ ((exists c, In c (pool plan) /\ answers c id
                /\ nth_error refs i =
                     Some (str_of_nat (S i) ++ ". " ++ format_vancouver_reference c))
             \/ ((forall c, In c (pool plan) -> ~ answers c id)
                 /\ nth_error refs i =
                      Some (str_of_nat (S i) ++ ". " ++ key_of id ++ missing_note))).
Proof.
  intros ids.
  destruct (number_drafts_value journal drafts plan include_abstract_citations)
    as (numbered & Hval).
  fold ids in Hval.
  set (ktc := fold_left index_citation (selected plan) []) in *.
  eexists numbered, _. split; [exact Hval|]. split.
  { rewrite length_map, length_combine, length_seq. lia. }
  intros i id Hi. split.
  { apply numbering_get_nth; [apply cited_once_NoDup|exact Hi]. }
  rewrite nth_error_map, (nth_error_combine_seq ids 1 i id Hi). cbn [option_map fst snd].
  unfold entry_for. replace (1 + i)%nat with (S i) by reflexivity.
  destruct (dict_get ktc (key_of id)) as [c|] eqn:Hget.
  - left. exists c.
    destruct (pool_index_some _ _ _ _ Hget) as [[Hin Hans]|Hnil]; [|discriminate].
    split; [exact Hin|]. split; [|reflexivity]. apply key_answers_identity. exact Hans.
  - right. split; [|reflexivity]. intros c Hin Hans.
    apply key_answers_identity in Hans.
    exact (pool_index_none _ _ _ Hget c Hin Hans).
Qed.

Lemma reference_list_complete_witness :
  number_drafts_and_build_references Scenario.bracket_journal Scenario.drafts
    Scenario.plan_111 false
  = Some ([("Introduction", "Prior work [1] showed X. [2] confirmed it.");
           ("Methods", "We repeated [1].")],
          ["1. Kim NK, Lee JH. Robotic rectal resection. Ann Surg. 2019;270(3):101-9.";
           "2. DOI:10.1/ab (Missing metadata; please fix in CitationPlan)."])
  /\ (exists numbered refs,
        number_drafts_and_build_references Scenario.bracket_journal Scenario.drafts
          Scenario.plan_111 false = Some (numbered, refs)
        /\ length refs = 2%nat
        /\ nth_error refs 1 =
             Some ("2. DOI:10.1/ab (Missing metadata; please fix in CitationPlan)."))
  .
Proof.
  split; [reflexivity|].
  destruct (reference_list_complete Scenario.bracket_journal Scenario.drafts
              Scenario.plan_111 false) as (numbered & refs & Hval & Hlen & Hentries).
  exists numbered, refs. split; [exact Hval|]. split; [exact Hlen|].
  destruct (Hentries 1%nat (DOI, "10.1/ab") eq_refl) as [_ [(c & Hin & Hans & _)|[_ Hnth]]].
  - exfalso. destruct Hin as [<-|[]]. destruct Hans as (p & Hp & _). discriminate Hp.
  - exact Hnth.
Defined.

End ReferenceList.
